(** * pybricksdev: the BLE link protocol engine of [pybricksdev/run.py]

    A shallow embedding of [HubDataReceiver] and [PybricksHubConnection]
    and the properties of the upload protocol: line framing of the inbound
    byte stream, the hub-status state machine, the data-log sub-protocol,
    the XOR checksum handshake and the chunked program download.

    Modelling choices.
    - [bytes] values are lists of [byte]; a [str] is the list of its code
      points; Python ints are [N].
    - The attributes of the receiver object ([buf], [state], [reply],
      [log_file]) are the fields of the record [hub].  Everything the
      program does to the outside (logger calls, [print], file operations,
      sleeps, GATT writes) is appended to the event trace [out].
    - Coroutines run on one cooperative event loop.  At every [await] the
      loop may run the callbacks registered in [connect]: the notification
      callback [update_data_buffer] and the disconnect callback
      [update_state_disconnected].  What arrives at each suspension point is
      given by the schedule [sched]: one slot per suspension; once the
      schedule is used up nothing arrives any more.  An exception raised by
      a callback ends that callback only; the loop reports it ([Uncaught]).
    - [open] is a call into the file system; whether it raises is the
      section variable [fs_open].  Writing to an open file, [print] and the
      GATT write are taken to succeed. *)

From Stdlib.Strings Require Import String Byte.
From Stdlib Require Import List NArith Arith Bool Lia.
Import ListNotations.

Local Open Scope nat_scope.

(** ** Values *)

Definition bytes := list byte.

(** A [str]: the sequence of its Unicode code points. *)
Definition text := list N.

Definition bytes_of (s : string) : bytes := list_byte_of_string s.
Definition text_of (s : string) : text := map Byte.to_N (list_byte_of_string s).

(** [a == b] on [bytes] *)
Fixpoint bytes_eqb (a b : bytes) : bool :=
  match a, b with
  | [], [] => true
  | x :: a', y :: b' => Byte.eqb x y && bytes_eqb a' b'
  | _, _ => false
  end.

Definition byte_of_N (n : N) : byte :=
  match Byte.of_N (n mod 256) with Some b => b | None => x00 end.

(** Python exceptions the program can meet.  [UnicodeDecodeError] is a
    subclass of [ValueError]; the messages are those of the source. *)
Inductive exn : Type :=
| ValueError (msg : string)
| UnicodeDecodeError
| OSError (msg : string)
| TimeoutError (msg : string)
| IndexError
| OverflowError.

(** [isinstance(e, ValueError)]: what [except ValueError] catches. *)
Definition is_ValueError (e : exn) : bool :=
  match e with
  | ValueError _ | UnicodeDecodeError => true
  | _ => false
  end.

(** The class constants [UNKNOWN = 0] ... [CHECKING = 4]. *)
Inductive hub_state : Type := UNKNOWN | IDLE | RUNNING | ERROR | CHECKING.

Definition state_code (s : hub_state) : N :=
  match s with
  | UNKNOWN => 0 | IDLE => 1 | RUNNING => 2 | ERROR => 3 | CHECKING => 4
  end%N.

Definition hub_state_eqb (a b : hub_state) : bool :=
  N.eqb (state_code a) (state_code b).

(** What the event loop delivers while a coroutine is suspended. *)
Inductive inbound : Type :=
| Notify (data : bytes)     (* a notification on the TX characteristic *)
| Disconnect.               (* the disconnected callback *)

Definition slot := list inbound.

(** The observable actions, in the order they happen. *)
Inductive event : Type :=
| NewState (s : hub_state)                     (* debug "New State: .." *)
| RX (line : bytes)                            (* debug "RX: .." *)
| CS (r : N)                                   (* debug "CS: .." *)
| TX (chunk : bytes)                           (* debug "TX: .." *)
| Expected (checksum : N) (r : option N)       (* debug "expected: .., reply: .." *)
| Saving (name : text)                         (* info "Saving log to .." *)
| DoneSaving                                   (* info "Done saving log." *)
| Data (t : text)                              (* debug text *)
| Disconnected                                 (* info "Disconnected!" *)
| Sending (sent total : nat)                   (* info "Sending: ..%" *)
| Stdout (t : text)                            (* print to the terminal *)
| FileOpen (name : text)
| FileWrite (name : text) (t : text)
| FileClose (name : text)
| Sleep (ms : N)                               (* asyncio.sleep *)
| GattWrite (chunk : bytes)                    (* client.write_gatt_char *)
| Uncaught (e : exn).                          (* a callback raised *)

(** ** The receiver object and the world around it *)

Record hub : Type := mkHub {
  buf : bytes;
  state : hub_state;
  reply : option N;
  log_file : option text;      (* the name the open log file was opened with *)
  sched : list slot;
  out : list event
}.

(** [HubDataReceiver.__init__] *)
Definition init (s : list slot) : hub := mkHub [] UNKNOWN None None s [].

Definition set_buf (b : bytes) (w : hub) : hub :=
  mkHub b (state w) (reply w) (log_file w) (sched w) (out w).
Definition set_state (s : hub_state) (w : hub) : hub :=
  mkHub (buf w) s (reply w) (log_file w) (sched w) (out w).
Definition set_reply (r : option N) (w : hub) : hub :=
  mkHub (buf w) (state w) r (log_file w) (sched w) (out w).
Definition set_log_file (f : option text) (w : hub) : hub :=
  mkHub (buf w) (state w) (reply w) f (sched w) (out w).
Definition set_sched (s : list slot) (w : hub) : hub :=
  mkHub (buf w) (state w) (reply w) (log_file w) s (out w).
Definition emit (e : event) (w : hub) : hub :=
  mkHub (buf w) (state w) (reply w) (log_file w) (sched w) (out w ++ [e]).

(** ** A state and exception monad *)

Inductive outcome (A : Type) : Type :=
| Returns (a : A)
| Raises (e : exn)
| Hangs.                         (* the call never comes back *)
Arguments Returns {A} a.
Arguments Raises {A} e.
Arguments Hangs {A}.

Definition M (A : Type) : Type := hub -> outcome A * hub.

Definition ret {A} (a : A) : M A := fun w => (Returns a, w).
Definition raise {A} (e : exn) : M A := fun w => (Raises e, w).
Definition bind {A B} (c : M A) (k : A -> M B) : M B :=
  fun w =>
    match c w with
    | (Returns a, w1) => k a w1
    | (Raises e, w1) => (Raises e, w1)
    | (Hangs, w1) => (Hangs, w1)
    end.
Definition gets {A} (f : hub -> A) : M A := fun w => (Returns (f w), w).
Definition modify (f : hub -> hub) : M unit := fun w => (Returns tt, f w).
Definition log (e : event) : M unit := modify (emit e).

Declare Scope hub_scope.
Delimit Scope hub_scope with hub.
Notation "x <- c ;; k" := (bind c (fun x => k))
  (at level 61, c at next level, right associativity) : hub_scope.
Notation "c ;; k" := (bind c (fun _ => k))
  (at level 61, right associativity) : hub_scope.
Local Open Scope hub_scope.

(** ** Library functions of Python *)

(** [bytes.decode()]: strict UTF-8 (well-formed sequences of the Unicode
    standard; no overlong forms, no surrogates, nothing above U+10FFFF).
    [None] where Python raises [UnicodeDecodeError]. *)
Definition is_cont (c : N) : bool := ((0x80 <=? c) && (c <=? 0xBF))%N.

Definition second3 (c0 c1 : N) : bool :=
  (if c0 =? 0xE0 then (0xA0 <=? c1) && (c1 <=? 0xBF)
   else if c0 =? 0xED then (0x80 <=? c1) && (c1 <=? 0x9F)
   else is_cont c1)%N.

Definition second4 (c0 c1 : N) : bool :=
  (if c0 =? 0xF0 then (0x90 <=? c1) && (c1 <=? 0xBF)
   else if c0 =? 0xF4 then (0x80 <=? c1) && (c1 <=? 0x8F)
   else is_cont c1)%N.

Fixpoint decode (l : bytes) : option text :=
  match l with
  | [] => Some []
  | b0 :: r0 =>
    let c0 := Byte.to_N b0 in
    if (c0 <? 0x80)%N then option_map (cons c0) (decode r0) else
    match r0 with
    | [] => None
    | b1 :: r1 =>
      let c1 := Byte.to_N b1 in
      if ((0xC2 <=? c0) && (c0 <=? 0xDF))%N then
        if is_cont c1
        then option_map (cons ((c0 - 0xC0) * 64 + (c1 - 0x80))%N) (decode r1)
        else None
      else
      match r1 with
      | [] => None
      | b2 :: r2 =>
        let c2 := Byte.to_N b2 in
        if ((0xE0 <=? c0) && (c0 <=? 0xEF))%N then
          if second3 c0 c1 && is_cont c2
          then option_map
                 (cons ((c0 - 0xE0) * 4096 + (c1 - 0x80) * 64 + (c2 - 0x80))%N)
                 (decode r2)
          else None
        else
        match r2 with
        | [] => None
        | b3 :: r3 =>
          let c3 := Byte.to_N b3 in
          if ((0xF0 <=? c0) && (c0 <=? 0xF4))%N then
            if second4 c0 c1 && is_cont c2 && is_cont c3
            then option_map
                   (cons ((c0 - 0xF0) * 262144 + (c1 - 0x80) * 4096
                          + (c2 - 0x80) * 64 + (c3 - 0x80))%N)
                   (decode r3)
            else None
          else None
        end
      end
    end
  end.

(** [p in t] for two [str]: [p] occurs in [t] as a contiguous run. *)
Fixpoint starts_with (p t : text) : bool :=
  match p, t with
  | [], _ => true
  | _ :: _, [] => false
  | a :: p', b :: t' => N.eqb a b && starts_with p' t'
  end.

Fixpoint contains (p t : text) : bool :=
  starts_with p t ||
  match t with
  | [] => false
  | _ :: t' => contains p t'
  end.

(** [buf.index(b'\r\n')]: the position of the first occurrence; [None]
    where Python raises [ValueError]. *)
Definition CR : byte := x0d.
Definition LF : byte := x0a.
Definition CRLF : bytes := [CR; LF].

Definition at_crlf (l : bytes) : bool :=
  match l with
  | a :: b :: _ => Byte.eqb a CR && Byte.eqb b LF
  | _ => false
  end.

Fixpoint index_crlf (l : bytes) : option nat :=
  match l with
  | [] => None
  | _ :: t => if at_crlf l then Some 0 else option_map S (index_crlf t)
  end.

(** [data[i : i + n]] *)
Definition slice (data : bytes) (i n : nat) : bytes := firstn n (skipn i data).

(** [[data[i : i + n] for i in range(0, len(data), n)]] *)
Definition chunks (n : nat) (data : bytes) : list bytes :=
  map (fun k => slice data (k * n) n) (seq 0 ((length data + n - 1) / n)).

(** [k.to_bytes(4, byteorder='little')]; [None] where Python raises
    [OverflowError]. *)
Definition to_bytes4 (k : N) : option bytes :=
  if (k <? 2 ^ 32)%N
  then Some [byte_of_N k; byte_of_N (k / 2 ^ 8);
             byte_of_N (k / 2 ^ 16); byte_of_N (k / 2 ^ 24)]
  else None.

(** [data[-1]]; [None] where Python raises [IndexError]. *)
Definition last_byte (data : bytes) : option byte :=
  match rev data with
  | [] => None
  | b :: _ => Some b
  end.

(** [for x in l: body(x)] *)
Fixpoint for_each {A} (l : list A) (body : A -> M unit) : M unit :=
  match l with
  | [] => ret tt
  | x :: l' => body x ;; for_each l' body
  end.

(** [enumerate(l)] *)
Definition enumerate {A} (l : list A) : list (nat * A) :=
  combine (seq 0 (length l)) l.

(** ** The receiver of [pybricks_tools/ble.py]

    The earlier variant of [HubDataReceiver]: the status is the token
    itself ([None] for UNKNOWN), every line is printed, and there is
    neither a checksum phase nor data logging.  It raises nothing (the only
    exception, from [decode], is caught by [except ValueError]), so its
    methods are functions on the record [Ble.receiver]. *)
Module Ble.

Definition IDLE : bytes := bytes_of ">>>> IDLE".
Definition RUNNING : bytes := bytes_of ">>>> RUNNING".
Definition ERROR : bytes := bytes_of ">>>> ERROR".
Definition UNKNOWN : option bytes := None.

Inductive event : Type :=
| NewData (line : bytes)         (* debug "New Data: .." *)
| NewState (line : bytes)        (* debug "New State: .." *)
| Print (t : text)               (* print *)
| Disconnected.                  (* info "Disconnected!" *)

Record receiver : Type := mk {
  buf : bytes;
  state : option bytes;
  out : list event
}.

(** [HubDataReceiver.__init__] *)
Definition init : receiver := mk [] UNKNOWN [].

(** [line in (self.IDLE, self.RUNNING, self.ERROR)] *)
Definition is_status (line : bytes) : bool :=
  bytes_eqb line IDLE || bytes_eqb line RUNNING || bytes_eqb line ERROR.

(** [line != self.state] *)
Definition differs (line : bytes) (s : option bytes) : bool :=
  match s with
  | Some x => negb (bytes_eqb line x)
  | None => true
  end.

Definition update_state (line : bytes) (r : receiver) : receiver :=
  if is_status line then
    if differs line (state r)
    then mk (buf r) (Some line) (out r ++ [NewState line])
    else r
  else r.

(** The [while True] loop of [update_data_buffer]; [None] stands for a
    loop that is cut short ([length buf] rounds are always enough). *)
Fixpoint extract_lines (fuel : nat) (r : receiver) : option receiver :=
  match index_crlf (buf r) with
  | None => Some r
  | Some index =>
    match fuel with
    | 0 => None
    | S fuel' =>
      let line := firstn index (buf r) in
      let r1 := mk (skipn (index + 2) (buf r)) (state r)
                   (out r ++ [NewData line]) in
      let r2 := update_state line r1 in
      match decode line with
      | None => Some r2
      | Some t =>
        extract_lines fuel'
          (mk (buf r2) (state r2) (out r2 ++ [Print (t ++ [10%N])]))
      end
    end
  end.

Definition update_data_buffer (data : bytes) (r : receiver)
  : option receiver :=
  extract_lines (length (buf r ++ data)) (mk (buf r ++ data) (state r) (out r)).

Definition update_state_disconnected (r : receiver) : receiver :=
  mk (buf r) UNKNOWN (out r ++ [Disconnected]).

(** What was printed, and the lines that were extracted. *)
Definition printed (t : list event) : list text :=
  flat_map (fun e => match e with Print x => [x] | _ => [] end) t.

Definition new_data (t : list event) : list bytes :=
  flat_map (fun e => match e with NewData l => [l] | _ => [] end) t.

(** The status is UNKNOWN or one of the three tokens. *)
Definition valid (r : receiver) : Prop :=
  state r = None \/ state r = Some IDLE \/ state r = Some RUNNING \/
  state r = Some ERROR.

End Ble.

(** The status of [run.py] as the one of [ble.py]. *)
Definition token_of (s : hub_state) : option bytes :=
  match s with
  | IDLE => Some Ble.IDLE
  | RUNNING => Some Ble.RUNNING
  | ERROR => Some Ble.ERROR
  | UNKNOWN | CHECKING => None
  end.

(** A file system in which every [open] succeeds. *)
Definition fs_ok : text -> option exn := fun _ => None.

(** ** class HubDataReceiver *)

Section Program.

(** [open(name, 'w')]: [None] when the file is opened, [Some e] when the
    call raises [e]. *)
Variable fs_open : text -> option exn.

Definition PB_OF : text := text_of "PB_OF".
Definition PB_EOF : text := text_of "PB_EOF".
Definition newline : text := [10%N].

Definition process_line (line : bytes) : M unit :=
  match decode line with
  | None => raise UnicodeDecodeError
  | Some t =>
    if contains PB_OF t then
      f <- gets log_file ;;
      match f with
      | Some _ => raise (OSError "Log file is already open!")
      | None =>
        let name := skipn 6 t in
        log (Saving name) ;;
        match fs_open name with
        | Some e => raise e
        | None => log (FileOpen name) ;; modify (set_log_file (Some name))
        end
      end
    else if contains PB_EOF t then
      f <- gets log_file ;;
      match f with
      | None => raise (OSError "No log file is currently open!")
      | Some name =>
        log DoneSaving ;;
        log (FileClose name) ;;
        modify (set_log_file None)
      end
    else
      f <- gets log_file ;;
      match f with
      | Some name => log (FileWrite name (t ++ newline)) ;; log (Data t)
      | None => log (Stdout (t ++ newline))
      end
  end.

Definition map_state (line : bytes) : option hub_state :=
  if bytes_eqb line (bytes_of ">>>> IDLE") then Some IDLE
  else if bytes_eqb line (bytes_of ">>>> RUNNING") then Some RUNNING
  else if bytes_eqb line (bytes_of ">>>> ERROR") then Some ERROR
  else None.

Definition update_state (new_state : hub_state) : M unit :=
  s <- gets state ;;
  if hub_state_eqb new_state s then ret tt
  else log (NewState new_state) ;; modify (set_state new_state).

Definition update_state_disconnected : M unit :=
  update_state UNKNOWN ;; log Disconnected.

(** What the loop of [update_data_buffer] does with an extracted line. *)
Definition handle_line (line : bytes) : M unit :=
  log (RX line) ;;
  match map_state line with
  | Some s => update_state s
  | None => ret tt
  end ;;
  process_line line.

(** The body of the [try] in [update_data_buffer], once [index] has found
    the line break. *)
Definition take_line (index : nat) : M unit :=
  b <- gets buf ;;
  let line := firstn index b in
  modify (set_buf (skipn (index + 2) b)) ;;
  handle_line line.

(** The [while True] loop of [update_data_buffer].  Every round removes at
    least two bytes from [buf], so [length buf] rounds are enough
    ([extract_lines_total]); [Hangs] stands for a loop that is cut short. *)
Fixpoint extract_lines (fuel : nat) : M unit :=
  fun w =>
    match index_crlf (buf w) with
    | None => (Returns tt, w)
    | Some index =>
      match fuel with
      | 0 => (Hangs, w)
      | S fuel' =>
        match take_line index w with
        | (Returns _, w1) => extract_lines fuel' w1
        | (Raises e, w1) =>
          if is_ValueError e then (Returns tt, w1) else (Raises e, w1)
        | (Hangs, w1) => (Hangs, w1)
        end
      end
    end.

Definition update_data_buffer (data : bytes) : M unit :=
  s <- gets state ;;
  if hub_state_eqb s CHECKING then
    match last_byte data with
    | None => raise IndexError
    | Some b =>
      modify (set_reply (Some (Byte.to_N b))) ;;
      log (CS (Byte.to_N b))
    end
  else
    modify (fun w => set_buf (buf w ++ data) w) ;;
    (fun w => extract_lines (length (buf w)) w).

(** ** The event loop *)

Definition callback (i : inbound) : M unit :=
  match i with
  | Notify data => update_data_buffer data
  | Disconnect => update_state_disconnected
  end.

Definition run_callback (w : hub) (i : inbound) : hub :=
  match callback i w with
  | (Returns _, w1) => w1
  | (Raises e, w1) => emit (Uncaught e) w1
  | (Hangs, w1) => w1
  end.

Definition deliver (s : slot) (w : hub) : hub := fold_left run_callback s w.

(** One [await]: the callbacks of the next slot run. *)
Definition suspend : M unit :=
  fun w =>
    match sched w with
    | [] => (Returns tt, w)
    | s :: rest => (Returns tt, deliver s (set_sched rest w))
    end.

Definition sleep (ms : N) : M unit := log (Sleep ms) ;; suspend.
Definition write_gatt_char (chunk : bytes) : M unit :=
  log (GattWrite chunk) ;; suspend.

(** [for i in range(n)] of [wait_for_checksum] *)
Fixpoint poll_checksum (n : nat) : M (option N) :=
  match n with
  | 0 => raise (TimeoutError "Hub did not return checksum")
  | S n' =>
    sleep 10 ;;
    r <- gets reply ;;
    match r with
    | Some _ =>
      modify (set_reply None) ;;
      update_state IDLE ;;
      ret r
    | None => poll_checksum n'
    end
  end.

Definition wait_for_checksum : M (option N) :=
  update_state CHECKING ;; poll_checksum 50.

(** The [while True] loop of [wait_until_not_running].  Each round uses up
    one slot of the schedule; once the schedule is empty the state cannot
    change any more, so a round that still sees [RUNNING] then is followed
    by such rounds for ever: [Hangs]. *)
Fixpoint poll_not_running (fuel : nat) : M unit :=
  match fuel with
  | 0 => fun w => (Hangs, w)
  | S fuel' =>
    sleep 100 ;;
    s <- gets state ;;
    if hub_state_eqb s RUNNING then poll_not_running fuel' else ret tt
  end.

Definition wait_until_not_running : M unit :=
  sleep 500 ;;
  (fun w => poll_not_running (S (length (sched w))) w).

(** ** class PybricksHubConnection *)

Definition write (data : bytes) : M unit :=
  for_each (chunks 20 data)
    (fun chunk => log (TX chunk) ;; sleep 50 ;; write_gatt_char chunk).

(** [checksum = 0; for b in data: checksum ^= b] *)
Definition xor_fold (data : bytes) : N :=
  fold_left (fun checksum b => N.lxor checksum (Byte.to_N b)) data 0%N.

Definition send_message (data : bytes) : M unit :=
  if 100 <? length data
  then raise (ValueError "Cannot send this much data at once")
  else
    let checksum := xor_fold data in
    write data ;;
    r <- wait_for_checksum ;;
    log (Expected checksum r) ;;
    match r with
    | None => raise (OSError "Did not receive reply.")
    | Some v =>
      if negb (N.eqb checksum v)
      then raise (ValueError "Did not receive expected checksum.")
      else ret tt
    end.

Definition download_and_run (mpy : bytes) : M unit :=
  match to_bytes4 (N.of_nat (length mpy)) with
  | None => raise OverflowError
  | Some length_bytes =>
    send_message length_bytes ;;
    let cs := chunks 100 mpy in
    for_each (enumerate cs)
      (fun ic =>
         log (Sending (fst ic + 1) (length cs)) ;;
         send_message (snd ic)) ;;
    wait_until_not_running
  end.

(** ** Observations on the event trace *)

Definition is_new_state (e : event) : bool :=
  match e with NewState _ => true | _ => false end.

(** The number of recorded state changes. *)
Definition state_changes (t : list event) : nat :=
  length (filter is_new_state t).

(** The lines the dispatcher has extracted, in order. *)
Definition rx_lines (t : list event) : list bytes :=
  flat_map (fun e => match e with RX l => [l] | _ => [] end) t.

(** The transport writes, in order. *)
Definition gatt_writes (t : list event) : list bytes :=
  flat_map (fun e => match e with GattWrite c => [c] | _ => [] end) t.

(** A text without log markers. *)
Definition plain (t : text) : Prop :=
  contains PB_OF t = false /\ contains PB_EOF t = false.

(** Events that come from the callbacks (the inbound side). *)
Definition is_inbound_event (e : event) : bool :=
  match e with
  | NewState s => negb (hub_state_eqb s CHECKING)
  | TX _ | Expected _ _ | Sending _ _ | Sleep _ | GattWrite _ => false
  | _ => true
  end.

Definition is_outbound (e : event) : bool :=
  match e with Sleep _ | GattWrite _ => true | _ => false end.

(** The sleeps and transport writes of a trace, in order. *)
Definition outbound (t : list event) : list event := filter is_outbound t.

Definition sets_checking (e : event) : bool :=
  match e with NewState CHECKING => true | _ => false end.

(** What a callback may do to the receiver: it leaves the schedule alone,
    adds inbound events only, and outside the [CHECKING] phase it neither
    enters that phase nor touches [reply]. *)
Definition callback_step (w w' : hub) : Prop :=
  sched w' = sched w /\
  (exists t, out w' = out w ++ t /\ forallb is_inbound_event t = true) /\
  (state w <> CHECKING -> state w' <> CHECKING /\ reply w' = reply w).

Definition is_notify (i : inbound) : Prop := exists data, i = Notify data.

(** [runs n w w' t]: going from [w] to [w'] used up [n] slots of the
    schedule and added the events [t]; outside the [CHECKING] phase it
    neither entered that phase nor touched [reply]. *)
Definition runs (n : nat) (w w' : hub) (t : list event) : Prop :=
  out w' = out w ++ t /\
  sched w' = skipn n (sched w) /\
  (state w <> CHECKING -> state w' <> CHECKING /\ reply w' = reply w).

(** The sleeps and writes of [write] for the transport chunks [cs]. *)
Definition paced_writes (cs : list bytes) : list event :=
  flat_map (fun c => [Sleep 50; GattWrite c]) cs.

(** A stretch of the schedule in which nothing arrives. *)
Definition quiet (s : list slot) : Prop := Forall (fun x => x = []) s.

(** The trace of [write] when nothing arrives meanwhile. *)
Definition write_trace (cs : list bytes) : list event :=
  flat_map (fun c => [TX c; Sleep 50; GattWrite c]) cs.

(** The lines of a byte stream as the specification describes them:
    reading from the left, a line ends at each two-byte sequence CR LF;
    [cur] holds the bytes of the line being read.  The second component is
    what follows the last terminator. *)
Fixpoint split_stream (cur s : bytes) : list bytes * bytes :=
  match s with
  | [] => ([], cur)
  | a :: s1 =>
    match s1 with
    | [] => ([], cur ++ [a])
    | b :: s2 =>
      if Byte.eqb a CR && Byte.eqb b LF
      then let (ls, r) := split_stream [] s2 in (cur :: ls, r)
      else split_stream (cur ++ [a]) s1
    end
  end.

Definition spec_lines (s : bytes) : list bytes := fst (split_stream [] s).
Definition spec_rest (s : bytes) : bytes := snd (split_stream [] s).

Definition is_uplink (e : event) : bool :=
  match e with
  | GattWrite _ | Expected _ _ | Sending _ _ => true
  | _ => false
  end.

(** The transport writes, checksum comparisons and progress reports of a
    trace, in order. *)
Definition uplink (t : list event) : list event := filter is_uplink t.

(** One message written and acknowledged. *)
Definition message_trace (m : bytes) : list event :=
  map GattWrite (chunks 20 m) ++ [Expected (xor_fold m) (Some (xor_fold m))].

(** The protocol chunks [cs], each announced, written and acknowledged
    before the next. *)
Definition progress_trace (cs : list bytes) : list event :=
  flat_map
    (fun ic => Sending (fst ic + 1) (length cs) :: message_trace (snd ic))
    (enumerate cs).

(** A transport that echoes the right checksum for each of the messages
    [ms]: [acks ms s rest] says that the schedule [s] holds, for each
    message in turn, one slot for every suspension of [write] (anything may
    arrive there), then fewer than 50 slots in which nothing arrives, then
    a slot whose last notification ends with the XOR of the message; [rest]
    is what remains of the schedule. *)
Inductive acks : list bytes -> list slot -> list slot -> Prop :=
| acks_nil rest : acks [] rest rest
| acks_cons m ms pre q evs i c s rest :
    length pre = 2 * length (chunks 20 m) ->
    quiet q -> length q < 50 ->
    Forall is_notify evs ->
    Byte.to_N c = xor_fold m ->
    acks ms s rest ->
    acks (m :: ms) (pre ++ q ++ (evs ++ [Notify (i ++ [c])]) :: s) rest.

(** [int.from_bytes(b, byteorder='little')] *)
Definition from_bytes_le (b : bytes) : N :=
  fold_right (fun x acc => (Byte.to_N x + 256 * acc)%N) 0%N b.

(** The body of the [for] loop of [download_and_run]. *)
Definition send_chunk (total : nat) (ic : nat * bytes) : M unit :=
  log (Sending (fst ic + 1) total) ;; send_message (snd ic).

(** The lines [ls] as they travel on the wire: each followed by CR LF. *)
Definition frame (ls : list bytes) : bytes := flat_map (fun l => l ++ CRLF) ls.

(** The status after the lines [ls], starting from [s]: the one named by
    the last status token among them. *)
Definition last_status (ls : list bytes) (s : hub_state) : hub_state :=
  fold_left
    (fun s l => match map_state l with Some s' => s' | None => s end) ls s.

(** What was printed to the terminal, in order. *)
Definition stdout_of (t : list event) : list text :=
  flat_map (fun e => match e with Stdout x => [x] | _ => [] end) t.

Definition is_file_event (e : event) : bool :=
  match e with
  | FileOpen _ | FileWrite _ _ | FileClose _ => true
  | _ => false
  end.

(** What happened to log files, in order. *)
Definition file_events (t : list event) : list event := filter is_file_event t.


(** A receiver of [run.py] in line mode with no log file open and a
    receiver of [ble.py] that have seen the same: same buffer, same
    status. *)
Definition agree (w : hub) (r : Ble.receiver) : Prop :=
  buf w = Ble.buf r /\
  state w <> CHECKING /\
  Ble.state r = token_of (state w) /\
  log_file w = None.

(** A line that, if it is text at all, carries no log marker. *)
Definition unmarked (l : bytes) : Prop := forall t, decode l = Some t -> plain t.

(** ** Basic facts about the primitives *)

Ltac run :=
  unfold log, bind, gets, modify, ret, raise; simpl.

Ltac step :=
  unfold log, bind, gets, modify, ret, raise; cbv beta iota zeta.

(** Normalise setters applied to setters, innermost first. *)
Ltac hub_norm :=
  cbv beta iota delta
    [emit set_buf set_state set_reply set_log_file set_sched
     buf state reply log_file sched out fst snd ret].


Lemma hub_state_eqb_spec a b : reflect (a = b) (hub_state_eqb a b).
Proof. destruct a, b; simpl; constructor; congruence. Qed.

Lemma suspend_returns w : suspend w = (Returns tt, snd (suspend w)).
Proof. unfold suspend. destruct (sched w); reflexivity. Qed.

Lemma sleep_returns ms w : sleep ms w = (Returns tt, snd (sleep ms w)).
Proof.
  unfold sleep, log, modify, bind. rewrite suspend_returns. reflexivity.
Qed.

Lemma write_gatt_char_returns c w :
  write_gatt_char c w = (Returns tt, snd (write_gatt_char c w)).
Proof.
  unfold write_gatt_char, log, modify, bind. rewrite suspend_returns.
  reflexivity.
Qed.

Lemma update_state_returns s w :
  update_state s w = (Returns tt, snd (update_state s w)).
Proof. unfold update_state. run. destruct (hub_state_eqb s (state w)); reflexivity. Qed.

Lemma update_state_state s w : state (snd (update_state s w)) = s.
Proof.
  unfold update_state. run.
  destruct (hub_state_eqb_spec s (state w)); simpl; congruence.
Qed.

Lemma update_state_frame s w :
  let w' := snd (update_state s w) in
  buf w' = buf w /\ reply w' = reply w /\ log_file w' = log_file w /\
  sched w' = sched w.
Proof.
  unfold update_state. run.
  destruct (hub_state_eqb s (state w)); simpl; auto.
Qed.

(** ** The checksum wait *)

Lemma sleep_eq ms w : sleep ms w = suspend (emit (Sleep ms) w).
Proof. reflexivity. Qed.

Lemma suspend_cons w s rest :
  sched w = s :: rest ->
  suspend w = (Returns tt, deliver s (set_sched rest w)).
Proof. intros H. unfold suspend. rewrite H. reflexivity. Qed.

Lemma suspend_nil w : sched w = [] -> suspend w = (Returns tt, w).
Proof. intros H. unfold suspend. rewrite H. reflexivity. Qed.

Lemma poll_checksum_S n w :
  poll_checksum (S n) w =
  let w1 := snd (sleep 10 w) in
  match reply w1 with
  | Some v => (Returns (Some v), snd (update_state IDLE (set_reply None w1)))
  | None => poll_checksum n w1
  end.
Proof.
  simpl. unfold bind at 1. rewrite sleep_returns.
  unfold bind, gets. simpl.
  destruct (reply (snd (sleep 10 w))) as [v|]; [|reflexivity].
  unfold modify. rewrite update_state_returns. reflexivity.
Qed.

Lemma wait_for_checksum_eq w :
  wait_for_checksum w = poll_checksum 50 (snd (update_state CHECKING w)).
Proof.
  unfold wait_for_checksum, bind. rewrite update_state_returns. reflexivity.
Qed.

Lemma poll_checksum_returns n : forall w r w',
  poll_checksum n w = (Returns r, w') ->
  (exists v, r = Some v) /\ reply w' = None /\ state w' = IDLE.
Proof.
  induction n as [|n IH]; intros w r w' H; simpl in H.
  - discriminate.
  - unfold bind at 1 in H. rewrite sleep_returns in H.
    set (w1 := snd (sleep 10 w)) in *.
    unfold bind, gets in H. simpl in H.
    destruct (reply w1) as [v|] eqn:Hr.
    + unfold modify in H. rewrite update_state_returns in H.
      unfold ret in H. inversion H; subst. split; [eauto|].
      rewrite update_state_state.
      destruct (update_state_frame IDLE (set_reply None w1)) as (_ & Hrep & _).
      rewrite Hrep. auto.
    + eauto.
Qed.

Lemma wait_for_checksum_returns w r w' :
  wait_for_checksum w = (Returns r, w') ->
  (exists v, r = Some v) /\ reply w' = None /\ state w' = IDLE.
Proof.
  unfold wait_for_checksum, bind. rewrite update_state_returns.
  apply poll_checksum_returns.
Qed.

Lemma poll_checksum_raises n : forall w e w',
  poll_checksum n w = (Raises e, w') ->
  e = TimeoutError "Hub did not return checksum".
Proof.
  induction n as [|n IH]; intros w e w' H; simpl in H.
  - inversion H. reflexivity.
  - unfold bind at 1 in H. rewrite sleep_returns in H.
    set (w1 := snd (sleep 10 w)) in *.
    unfold bind, gets in H. simpl in H.
    destruct (reply w1) as [v|].
    + unfold modify in H. rewrite update_state_returns in H. discriminate.
    + eauto.
Qed.

Lemma poll_checksum_total n : forall w, fst (poll_checksum n w) <> Hangs.
Proof.
  induction n as [|n IH]; intros w; simpl.
  - discriminate.
  - unfold bind at 1. rewrite sleep_returns.
    set (w1 := snd (sleep 10 w)).
    unfold bind, gets. simpl.
    destruct (reply w1) as [v|].
    + unfold modify. rewrite update_state_returns. discriminate.
    + apply IH.
Qed.

Lemma for_each_returns {A} (body : A -> M unit) (l : list A) :
  (forall x w, body x w = (Returns tt, snd (body x w))) ->
  forall w, for_each l body w = (Returns tt, snd (for_each l body w)).
Proof.
  intros Hb. induction l as [|x l IH]; intros w; simpl.
  - reflexivity.
  - unfold bind. rewrite Hb. apply IH.
Qed.

Lemma write_chunk_returns c w :
  (log (TX c) ;; sleep 50 ;; write_gatt_char c) w =
  (Returns tt, snd ((log (TX c) ;; sleep 50 ;; write_gatt_char c) w)).
Proof.
  unfold bind at 1 3. unfold log, modify.
  unfold bind. rewrite sleep_returns. apply write_gatt_char_returns.
Qed.

Lemma write_returns data w : write data w = (Returns tt, snd (write data w)).
Proof. unfold write. apply for_each_returns. intros; apply write_chunk_returns. Qed.

(** C10.  In [send_message] the value compared after the checksum wait is
    never [None]: [wait_for_checksum] either returns a byte or raises
    [TimeoutError], whatever arrives meanwhile.  So no run of
    [send_message] ends in the "Did not receive reply." error. *)
Theorem send_message_reply_never_none :
  (forall w r w', wait_for_checksum w = (Returns r, w') -> r <> None) /\
  (forall w, fst (wait_for_checksum w) <> Hangs) /\
  (forall data w,
     fst (send_message data w) <> Raises (OSError "Did not receive reply.")).
Proof.
  split; [|split].
  - intros w r w' H. apply wait_for_checksum_returns in H.
    destruct H as ((v & ->) & _). discriminate.
  - intros w. unfold wait_for_checksum, bind.
    rewrite update_state_returns. apply poll_checksum_total.
  - intros data w. unfold send_message.
    destruct (100 <? length data); [simpl; discriminate|].
    unfold bind at 1. rewrite write_returns.
    set (w1 := snd (write data w)).
    unfold bind at 1.
    destruct (wait_for_checksum w1) as [[r| e |] w2] eqn:Hw;
      simpl; try discriminate.
    + apply wait_for_checksum_returns in Hw. destruct Hw as ((v & ->) & _).
      run. destruct (negb (xor_fold data =? v)%N); simpl; discriminate.
    + unfold wait_for_checksum, bind in Hw.
      rewrite update_state_returns in Hw.
      apply poll_checksum_raises in Hw. subst e. discriminate.
Qed.

(** ** The checksum mailbox *)

Lemma last_byte_snoc i b : last_byte (i ++ [b]) = Some b.
Proof. unfold last_byte. rewrite rev_unit. reflexivity. Qed.

Lemma update_data_buffer_checking w i b :
  state w = CHECKING ->
  update_data_buffer (i ++ [b]) w =
  (Returns tt, emit (CS (Byte.to_N b)) (set_reply (Some (Byte.to_N b)) w)).
Proof.
  intros H. unfold update_data_buffer. run. rewrite H. simpl.
  rewrite last_byte_snoc. reflexivity.
Qed.

(** C8.  While [state] is [CHECKING] the dispatcher stores the last byte of
    the fragment in [reply] (overwriting what was there) and does nothing
    else: [buf], [state] and the log file are untouched and the only event
    is the "CS" debug message, so no line is extracted.  The waiter empties
    [reply] when it reads it: a notification that arrives during the first
    poll is returned and the slot is [None] afterwards, and every return of
    [wait_for_checksum] leaves [reply = None].  (A fragment without bytes
    has no last byte: [data[-1]] raises [IndexError] and nothing
    changes.) *)
Theorem checksum_reply_is_last_byte :
  (forall w i b,
     state w = CHECKING ->
     update_data_buffer (i ++ [b]) w =
     (Returns tt,
      mkHub (buf w) CHECKING (Some (Byte.to_N b)) (log_file w) (sched w)
            (out w ++ [CS (Byte.to_N b)]))) /\
  (forall w i b rest,
     sched w = [Notify (i ++ [b])] :: rest ->
     fst (wait_for_checksum w) = Returns (Some (Byte.to_N b)) /\
     reply (snd (wait_for_checksum w)) = None) /\
  (forall w r w',
     wait_for_checksum w = (Returns r, w') -> reply w' = None) /\
  (forall w,
     state w = CHECKING ->
     update_data_buffer [] w = (Raises IndexError, w)).
Proof.
  split; [|split; [|split]];
    [| | |intros w H; unfold update_data_buffer; step; rewrite H;
          reflexivity].
  - intros w i b H. rewrite update_data_buffer_checking by assumption.
    unfold emit, set_reply. simpl. rewrite H. reflexivity.
  - intros w i b rest Hs.
    assert (Hw : exists w', wait_for_checksum w =
                            (Returns (Some (Byte.to_N b)), w')).
    { rewrite wait_for_checksum_eq.
      pose proof (update_state_state CHECKING w) as Hst.
      destruct (update_state_frame CHECKING w) as (_ & _ & _ & Hsc).
      set (w1 := snd (update_state CHECKING w)) in *.
      rewrite poll_checksum_S, sleep_eq.
      rewrite (suspend_cons _ [Notify (i ++ [b])] rest)
        by (unfold emit; cbn [sched]; rewrite Hsc; exact Hs).
      cbn [deliver fold_left snd]. unfold run_callback. cbn [callback].
      rewrite update_data_buffer_checking by (cbn [state set_sched emit]; assumption).
      cbn [reply emit set_reply]. eauto. }
    destruct Hw as (w' & Hw). rewrite Hw. split; [reflexivity|].
    apply wait_for_checksum_returns in Hw. tauto.
  - intros w r w' H. apply wait_for_checksum_returns in H. tauto.
Qed.

(** ** The size guard of [send_message] *)

(** C5 (as amended).  A payload of more than 100 bytes is refused with
    [ValueError] ("Cannot send this much data at once") before anything
    happens: the receiver, the schedule and the trace are unchanged, so
    there is no transport write and no state change. *)
Theorem send_message_too_large data w :
  100 < length data ->
  send_message data w =
  (Raises (ValueError "Cannot send this much data at once"), w).
Proof.
  intros H. unfold send_message.
  destruct (Nat.ltb_spec 100 (length data)); [reflexivity|lia].
Qed.

(** ** Status changes *)

Lemma bytes_eqb_eq a : forall b, bytes_eqb a b = true -> a = b.
Proof.
  induction a as [|x a IH]; intros [|y b] H; simpl in H;
    try discriminate; [reflexivity|].
  apply andb_true_iff in H. destruct H as (H1 & H2).
  apply Byte.byte_dec_bl in H1. f_equal; auto.
Qed.

Lemma map_state_inv line s :
  map_state line = Some s ->
  (line = bytes_of ">>>> IDLE" /\ s = IDLE) \/
  (line = bytes_of ">>>> RUNNING" /\ s = RUNNING) \/
  (line = bytes_of ">>>> ERROR" /\ s = ERROR).
Proof.
  unfold map_state. intros H.
  destruct (bytes_eqb line (bytes_of ">>>> IDLE")) eqn:E1.
  { apply bytes_eqb_eq in E1. inversion H. auto. }
  destruct (bytes_eqb line (bytes_of ">>>> RUNNING")) eqn:E2.
  { apply bytes_eqb_eq in E2. inversion H. auto. }
  destruct (bytes_eqb line (bytes_of ">>>> ERROR")) eqn:E3.
  { apply bytes_eqb_eq in E3. inversion H. auto. }
  discriminate.
Qed.

Lemma state_changes_app t1 t2 :
  state_changes (t1 ++ t2) = state_changes t1 + state_changes t2.
Proof. unfold state_changes. rewrite filter_app, length_app. reflexivity. Qed.

Lemma update_state_eq s w :
  update_state s w =
  (Returns tt,
   if hub_state_eqb s (state w) then w
   else set_state s (emit (NewState s) w)).
Proof.
  unfold update_state. run. destruct (hub_state_eqb s (state w)); reflexivity.
Qed.

(** C7 (as amended).  [update_state] records a change ("New State")
    exactly when the new value differs from the current one.  So applying
    the same status twice in a row records one change when the status
    differs from the current state and none when it equals it, for every
    current state.  Through the dispatcher: delivering the same status
    token line twice to a receiver in line mode (not [CHECKING], empty
    buffer) records one state change, or none when the token names the
    current state; delivered to a receiver in the [CHECKING] phase, the
    two lines are taken for checksum replies: no state change is
    recorded, the state stays [CHECKING] and [buf] is untouched. *)
Theorem state_change_recorded_once :
  (forall w s,
     update_state s w =
     (Returns tt,
      if hub_state_eqb s (state w) then w
      else set_state s (emit (NewState s) w))) /\
  (forall w s,
     let w2 := snd (update_state s (snd (update_state s w))) in
     state w2 = s /\
     state_changes (out w2) =
     state_changes (out w) + (if hub_state_eqb s (state w) then 0 else 1)) /\
  (forall w token s,
     map_state token = Some s ->
     state w <> CHECKING ->
     buf w = [] ->
     let w2 := deliver [Notify (token ++ CRLF); Notify (token ++ CRLF)] w in
     state w2 = s /\
     state_changes (out w2) =
     state_changes (out w) + (if hub_state_eqb s (state w) then 0 else 1)) /\
  (forall w token,
     state w = CHECKING ->
     let w2 := deliver [Notify (token ++ CRLF); Notify (token ++ CRLF)] w in
     state w2 = CHECKING /\
     state_changes (out w2) = state_changes (out w) /\
     buf w2 = buf w).
Proof.
  split; [intros; apply update_state_eq|split; [|split]].
  - intros w s. cbv zeta. rewrite !update_state_eq. cbn [snd].
    destruct (hub_state_eqb_spec s (state w)) as [E|E].
    + rewrite <- E. destruct (hub_state_eqb_spec s s); [|congruence].
      split; [congruence|lia].
    + cbn [state set_state emit].
      destruct (hub_state_eqb_spec s s); [|congruence].
      cbn [state set_state emit out]. rewrite state_changes_app.
      split; [reflexivity|reflexivity].
  - intros w token s Hm Hc Hb.
    destruct w as [b st r lf sc o]. cbn [state buf out] in *. subst b.
    apply map_state_inv in Hm.
    destruct Hm as [(-> & ->)|[(-> & ->)|(-> & ->)]];
      destruct st; try congruence; destruct lf; cbn -[state_changes];
      rewrite ?state_changes_app; cbn; (split; [reflexivity|lia]).
  - intros w token Hc. cbv zeta.
    assert (E : forall w0, state w0 = CHECKING ->
                run_callback w0 (Notify (token ++ CRLF)) =
                emit (CS 10) (set_reply (Some 10%N) w0)).
    { intros w0 H0. unfold run_callback. cbn [callback].
      change (token ++ CRLF) with (token ++ [CR] ++ [LF]).
      rewrite app_assoc, update_data_buffer_checking by exact H0.
      reflexivity. }
    unfold deliver. cbn [fold_left].
    rewrite (E w Hc), E by exact Hc.
    cbn [state buf out emit set_reply].
    rewrite !state_changes_app. cbn. split; [exact Hc|split; [lia|reflexivity]].
Qed.

(** ** The Line Processor *)

Lemma process_line_open line t w :
  decode line = Some t -> contains PB_OF t = true ->
  log_file w = None -> fs_open (skipn 6 t) = None ->
  process_line line w =
  (Returns tt,
   set_log_file (Some (skipn 6 t))
     (emit (FileOpen (skipn 6 t)) (emit (Saving (skipn 6 t)) w))).
Proof.
  intros Hd Ho Hl Hf. unfold process_line. rewrite Hd, Ho. step.
  rewrite Hl. step. rewrite Hf. reflexivity.
Qed.

Lemma process_line_open_twice line t w name :
  decode line = Some t -> contains PB_OF t = true ->
  log_file w = Some name ->
  process_line line w = (Raises (OSError "Log file is already open!"), w).
Proof.
  intros Hd Ho Hl. unfold process_line. rewrite Hd, Ho. step.
  rewrite Hl. reflexivity.
Qed.

Lemma process_line_close line t w name :
  decode line = Some t -> contains PB_OF t = false ->
  contains PB_EOF t = true -> log_file w = Some name ->
  process_line line w =
  (Returns tt, set_log_file None (emit (FileClose name) (emit DoneSaving w))).
Proof.
  intros Hd Ho Hc Hl. unfold process_line. rewrite Hd, Ho, Hc. step.
  rewrite Hl. reflexivity.
Qed.

Lemma process_line_close_unopened line t w :
  decode line = Some t -> contains PB_OF t = false ->
  contains PB_EOF t = true -> log_file w = None ->
  process_line line w =
  (Raises (OSError "No log file is currently open!"), w).
Proof.
  intros Hd Ho Hc Hl. unfold process_line. rewrite Hd, Ho, Hc. step.
  rewrite Hl. reflexivity.
Qed.

Lemma process_line_data line t w name :
  decode line = Some t -> contains PB_OF t = false ->
  contains PB_EOF t = false -> log_file w = Some name ->
  process_line line w =
  (Returns tt, emit (Data t) (emit (FileWrite name (t ++ newline)) w)).
Proof.
  intros Hd Ho Hc Hl. unfold process_line. rewrite Hd, Ho, Hc. step.
  rewrite Hl. reflexivity.
Qed.

Lemma process_line_plain line t w :
  decode line = Some t -> contains PB_OF t = false ->
  contains PB_EOF t = false -> log_file w = None ->
  process_line line w = (Returns tt, emit (Stdout (t ++ newline)) w).
Proof.
  intros Hd Ho Hc Hl. unfold process_line. rewrite Hd, Ho, Hc. step.
  rewrite Hl. reflexivity.
Qed.

(** C9.  For a line that decodes to the text [t] the Line Processor works
    by cases, the first that applies:
    - [t] carries the log-open marker [PB_OF]: with a log file already
      open the call fails with [OSError] ("Log file is already open!") and
      changes nothing; otherwise it opens the file named by the text after
      the marker ([t[6:]]) and attaches it (given that [open] succeeds);
    - else [t] carries the log-close marker [PB_EOF]: with no log file
      open the call fails with [OSError] ("No log file is currently
      open!") and changes nothing; otherwise it closes the file and
      detaches it;
    - else, with a log file open, the line plus a newline is written to
      that file and nothing is printed.
    Hence an open-marker line for [out.txt], two data lines and a
    close-marker line give one open, two writes and one close, and leave
    no log file attached. *)
Theorem log_file_lifecycle :
  (forall line t, decode line = Some t ->
     (contains PB_OF t = true ->
        (forall w name, log_file w = Some name ->
           process_line line w =
           (Raises (OSError "Log file is already open!"), w)) /\
        (forall w, log_file w = None -> fs_open (skipn 6 t) = None ->
           process_line line w =
           (Returns tt,
            mkHub (buf w) (state w) (reply w) (Some (skipn 6 t)) (sched w)
                  (out w ++ [Saving (skipn 6 t); FileOpen (skipn 6 t)])))) /\
     (contains PB_OF t = false -> contains PB_EOF t = true ->
        (forall w, log_file w = None ->
           process_line line w =
           (Raises (OSError "No log file is currently open!"), w)) /\
        (forall w name, log_file w = Some name ->
           process_line line w =
           (Returns tt,
            mkHub (buf w) (state w) (reply w) None (sched w)
                  (out w ++ [DoneSaving; FileClose name])))) /\
     (plain t ->
        forall w name, log_file w = Some name ->
          process_line line w =
          (Returns tt,
           mkHub (buf w) (state w) (reply w) (Some name) (sched w)
                 (out w ++ [FileWrite name (t ++ newline); Data t])))) /\
  (forall d1 d2 t1 t2 w,
     decode d1 = Some t1 -> plain t1 ->
     decode d2 = Some t2 -> plain t2 ->
     log_file w = None ->
     fs_open (text_of "out.txt") = None ->
     let run :=
       for_each [bytes_of "PB_OF out.txt"; d1; d2; bytes_of "PB_EOF"]
                process_line w in
     fst run = Returns tt /\
     log_file (snd run) = None /\
     out (snd run) =
     out w ++ [Saving (text_of "out.txt"); FileOpen (text_of "out.txt");
               FileWrite (text_of "out.txt") (t1 ++ newline); Data t1;
               FileWrite (text_of "out.txt") (t2 ++ newline); Data t2;
               DoneSaving; FileClose (text_of "out.txt")]).
Proof.
  split.
  - intros line t Hd. split; [|split].
    + intros Ho. split.
      * intros w name Hl. eapply process_line_open_twice; eassumption.
      * intros w Hl Hf. rewrite (process_line_open line t) by assumption.
        hub_norm. rewrite <- app_assoc. reflexivity.
    + intros Ho Hc. split.
      * intros w Hl. eapply process_line_close_unopened; eassumption.
      * intros w name Hl.
        rewrite (process_line_close line t w name) by assumption.
        hub_norm. rewrite <- app_assoc. reflexivity.
    + intros (Ho & Hc) w name Hl.
      rewrite (process_line_data line t w name) by assumption.
      hub_norm. rewrite <- app_assoc. destruct w; cbn in Hl; subst.
      reflexivity.
  - intros d1 d2 t1 t2 w Hd1 (Ho1 & Hc1) Hd2 (Ho2 & Hc2) Hl Hf. cbv zeta.
    cbn [for_each]. unfold bind.
    rewrite (process_line_open _ (text_of "PB_OF out.txt"))
      by (assumption || reflexivity).
    change (skipn 6 (text_of "PB_OF out.txt")) with (text_of "out.txt").
    rewrite (process_line_data d1 t1 _ (text_of "out.txt"))
      by (assumption || reflexivity).
    rewrite (process_line_data d2 t2 _ (text_of "out.txt"))
      by (assumption || reflexivity).
    rewrite (process_line_close _ (text_of "PB_EOF") _ (text_of "out.txt"))
      by reflexivity.
    hub_norm. rewrite <- !app_assoc. cbn [app]. auto.
Qed.

(** ** What callbacks can and cannot do *)

Lemma callback_step_refl w : callback_step w w.
Proof.
  split; [reflexivity|split; [|auto]].
  exists []. rewrite app_nil_r. auto.
Qed.

Lemma callback_step_trans w1 w2 w3 :
  callback_step w1 w2 -> callback_step w2 w3 -> callback_step w1 w3.
Proof.
  intros (S1 & (t1 & O1 & F1) & L1) (S2 & (t2 & O2 & F2) & L2).
  split; [congruence|split].
  - exists (t1 ++ t2). rewrite O2, O1, app_assoc. split; [reflexivity|].
    rewrite forallb_app, F1, F2. reflexivity.
  - intros H. destruct (L1 H) as (H1 & R1). destruct (L2 H1) as (H2 & R2).
    split; [assumption|congruence].
Qed.

Lemma emit_step e w : is_inbound_event e = true -> callback_step w (emit e w).
Proof.
  intros H. split; [reflexivity|split; [|auto]].
  exists [e]. simpl. rewrite H. auto.
Qed.

Lemma set_buf_step b w : callback_step w (set_buf b w).
Proof.
  split; [reflexivity|split; [|auto]].
  exists []. simpl. rewrite app_nil_r. auto.
Qed.

Lemma set_log_file_step f w : callback_step w (set_log_file f w).
Proof.
  split; [reflexivity|split; [|auto]].
  exists []. simpl. rewrite app_nil_r. auto.
Qed.

Lemma update_state_step s w :
  s <> CHECKING -> callback_step w (snd (update_state s w)).
Proof.
  intros Hs. rewrite update_state_eq. cbn [snd].
  destruct (hub_state_eqb s (state w)); [apply callback_step_refl|].
  split; [reflexivity|split].
  - exists [NewState s]. split; [reflexivity|]. simpl.
    destruct (hub_state_eqb_spec s CHECKING); [contradiction|reflexivity].
  - intros _. simpl. auto.
Qed.

Ltac steps :=
  repeat first
    [ apply callback_step_refl
    | apply set_buf_step
    | apply set_log_file_step
    | apply emit_step; reflexivity
    | eapply callback_step_trans; [|apply set_log_file_step]
    | eapply callback_step_trans; [|apply emit_step; reflexivity] ].

Lemma process_line_step line w :
  callback_step w (snd (process_line line w)).
Proof.
  unfold process_line.
  destruct (decode line) as [t|]; [|apply callback_step_refl].
  destruct (contains PB_OF t).
  { step. destruct (log_file w); cbn [snd]; [steps|].
    destruct (fs_open (skipn 6 t)); cbn [snd]; steps. }
  destruct (contains PB_EOF t); step; destruct (log_file w); cbn [snd]; steps.
Qed.

Lemma map_state_not_checking line s : map_state line = Some s -> s <> CHECKING.
Proof.
  intros H. apply map_state_inv in H.
  destruct H as [(_ & ->)|[(_ & ->)|(_ & ->)]]; discriminate.
Qed.

Lemma handle_line_step line w : callback_step w (snd (handle_line line w)).
Proof.
  unfold handle_line. unfold bind at 1. unfold log, modify.
  eapply callback_step_trans; [apply (emit_step (RX line)); reflexivity|].
  set (w1 := emit (RX line) w).
  unfold bind.
  destruct (map_state line) as [s|] eqn:Hm.
  - rewrite update_state_returns.
    eapply callback_step_trans;
      [apply update_state_step; eapply map_state_not_checking; eassumption|].
    apply process_line_step.
  - unfold ret. apply process_line_step.
Qed.

Lemma take_line_step i w : callback_step w (snd (take_line i w)).
Proof.
  unfold take_line. step.
  eapply callback_step_trans; [apply set_buf_step|apply handle_line_step].
Qed.

Lemma extract_lines_step fuel : forall w,
  callback_step w (snd (extract_lines fuel w)).
Proof.
  induction fuel as [|fuel IH]; intros w; simpl;
    destruct (index_crlf (buf w)) as [i|]; try apply callback_step_refl.
  pose proof (take_line_step i w) as Ht.
  destruct (take_line i w) as [[[]|e|] w1]; cbn [snd] in *.
  - eapply callback_step_trans; [exact Ht|apply IH].
  - destruct (is_ValueError e); exact Ht.
  - exact Ht.
Qed.

Lemma update_data_buffer_step data w :
  callback_step w (snd (update_data_buffer data w)).
Proof.
  unfold update_data_buffer. step.
  destruct (hub_state_eqb_spec (state w) CHECKING) as [E|E].
  - destruct (last_byte data) as [b|]; cbn [snd];
      [|apply callback_step_refl].
    split; [reflexivity|split; [|contradiction]].
    exists [CS (Byte.to_N b)]. auto.
  - eapply callback_step_trans; [apply set_buf_step|].
    apply extract_lines_step.
Qed.

Lemma update_state_disconnected_step w :
  callback_step w (snd (update_state_disconnected w)).
Proof.
  unfold update_state_disconnected, bind. rewrite update_state_returns.
  unfold log, modify. cbn [snd].
  eapply callback_step_trans;
    [apply (update_state_step UNKNOWN); discriminate|].
  apply emit_step. reflexivity.
Qed.

Lemma run_callback_step w i : callback_step w (run_callback w i).
Proof.
  unfold run_callback.
  assert (H : callback_step w (snd (callback i w))).
  { destruct i; [apply update_data_buffer_step
                |apply update_state_disconnected_step]. }
  destruct (callback i w) as [[[]|e|] w1]; cbn [snd] in H; try exact H.
  eapply callback_step_trans; [exact H|apply emit_step; reflexivity].
Qed.

Lemma deliver_step s : forall w, callback_step w (deliver s w).
Proof.
  unfold deliver. induction s as [|i s IH]; intros w; simpl.
  - apply callback_step_refl.
  - eapply callback_step_trans; [apply run_callback_step|apply IH].
Qed.

(** ** Suspension points *)

Lemma runs_trans n m w1 w2 w3 t1 t2 :
  runs n w1 w2 t1 -> runs m w2 w3 t2 -> runs (n + m) w1 w3 (t1 ++ t2).
Proof.
  intros (O1 & S1 & L1) (O2 & S2 & L2). split; [|split].
  - rewrite O2, O1, app_assoc. reflexivity.
  - rewrite S2, S1, skipn_skipn. f_equal. lia.
  - intros H. destruct (L1 H) as (H1 & R1). destruct (L2 H1) as (H2 & R2).
    split; [assumption|congruence].
Qed.

Lemma runs_emit e w : runs 0 w (emit e w) [e].
Proof. split; [reflexivity|split; [reflexivity|auto]]. Qed.

Lemma suspend_runs w :
  exists t, runs 1 w (snd (suspend w)) t /\
            forallb is_inbound_event t = true.
Proof.
  unfold suspend. destruct (sched w) as [|s rest] eqn:Hs; cbn [snd].
  - exists []. split; [|reflexivity].
    split; [now rewrite app_nil_r|split; [now rewrite Hs|auto]].
  - destruct (deliver_step s (set_sched rest w)) as (S1 & (t & O1 & F1) & L1).
    exists t. split; [|assumption].
    split; [exact O1|split; [now rewrite S1, Hs|exact L1]].
Qed.

Lemma sleep_runs ms w :
  exists t, runs 1 w (snd (sleep ms w)) (Sleep ms :: t) /\
            forallb is_inbound_event t = true.
Proof.
  rewrite sleep_eq.
  destruct (suspend_runs (emit (Sleep ms) w)) as (t & R & F).
  exists t. split; [|assumption].
  apply (runs_trans 0 1 w (emit (Sleep ms) w) _ [Sleep ms] t);
    [apply runs_emit|assumption].
Qed.

Lemma write_gatt_char_runs c w :
  exists t, runs 1 w (snd (write_gatt_char c w)) (GattWrite c :: t) /\
            forallb is_inbound_event t = true.
Proof.
  change (write_gatt_char c w) with (suspend (emit (GattWrite c) w)).
  destruct (suspend_runs (emit (GattWrite c) w)) as (t & R & F).
  exists t. split; [|assumption].
  apply (runs_trans 0 1 w (emit (GattWrite c) w) _ [GattWrite c] t);
    [apply runs_emit|assumption].
Qed.

Lemma outbound_app t1 t2 : outbound (t1 ++ t2) = outbound t1 ++ outbound t2.
Proof. apply filter_app. Qed.

Lemma inbound_outbound t :
  forallb is_inbound_event t = true -> outbound t = [].
Proof.
  induction t as [|e t IH]; simpl; [reflexivity|].
  intros H. apply andb_true_iff in H. destruct H as (He & Ht).
  destruct e; simpl in *; try discriminate; auto.
Qed.

Lemma inbound_no_checking t :
  forallb is_inbound_event t = true -> existsb sets_checking t = false.
Proof.
  induction t as [|e t IH]; simpl; [reflexivity|].
  intros H. apply andb_true_iff in H. destruct H as (He & Ht).
  rewrite (IH Ht), orb_false_r.
  destruct e; try reflexivity. destruct s; try reflexivity. discriminate.
Qed.

Lemma gatt_writes_app t1 t2 :
  gatt_writes (t1 ++ t2) = gatt_writes t1 ++ gatt_writes t2.
Proof. apply flat_map_app. Qed.

Lemma inbound_gatt_writes t :
  forallb is_inbound_event t = true -> gatt_writes t = [].
Proof.
  induction t as [|e t IH]; simpl; [reflexivity|].
  intros H. apply andb_true_iff in H. destruct H as (He & Ht).
  rewrite (IH Ht). destruct e; simpl in *; try discriminate; reflexivity.
Qed.

Lemma uplink_app t1 t2 : uplink (t1 ++ t2) = uplink t1 ++ uplink t2.
Proof. apply filter_app. Qed.

Lemma inbound_uplink t :
  forallb is_inbound_event t = true -> uplink t = [].
Proof.
  induction t as [|e t IH]; simpl; [reflexivity|].
  intros H. apply andb_true_iff in H. destruct H as (He & Ht).
  destruct e; simpl in *; try discriminate; auto.
Qed.

Lemma uplink_gatt_writes t : uplink t = [] -> gatt_writes t = [].
Proof.
  induction t as [|e t IH]; simpl; [reflexivity|].
  destruct e; simpl; try discriminate; auto.
Qed.

(** ** [write]: paced transport chunks *)

Lemma write_chunks_runs cs : forall w,
  exists t,
    runs (2 * length cs) w
         (snd (for_each cs
                 (fun chunk => log (TX chunk) ;; sleep 50 ;;
                               write_gatt_char chunk) w)) t /\
    outbound t = paced_writes cs /\
    existsb sets_checking t = false /\
    uplink t = map GattWrite cs.
Proof.
  induction cs as [|c cs IH]; intros w.
  - exists []. cbn. split; [|auto].
    split; [now rewrite app_nil_r|auto].
  - cbn [for_each]. unfold bind at 1. rewrite write_chunk_returns.
    set (w1 := snd ((log (TX c);; sleep 50;; write_gatt_char c) w)).
    assert (H1 : exists t1, runs 2 w w1 t1 /\
                            outbound t1 = [Sleep 50; GattWrite c] /\
                            existsb sets_checking t1 = false /\
                            uplink t1 = [GattWrite c]).
    { subst w1. unfold bind at 1. unfold log, modify.
      unfold bind. rewrite sleep_returns.
      destruct (sleep_runs 50 (emit (TX c) w)) as (ta & Ra & Fa).
      set (wa := snd (sleep 50 (emit (TX c) w))) in *.
      destruct (write_gatt_char_runs c wa) as (tb & Rb & Fb).
      exists ([TX c] ++ (Sleep 50 :: ta) ++ (GattWrite c :: tb)).
      split; [|split; [|split]].
      - apply (runs_trans 0 2 w (emit (TX c) w)); [apply runs_emit|].
        apply (runs_trans 1 1 _ wa); assumption.
      - change ([TX c] ++ (Sleep 50 :: ta) ++ GattWrite c :: tb)
          with ([TX c; Sleep 50] ++ ta ++ [GattWrite c] ++ tb).
        rewrite !outbound_app.
        rewrite (inbound_outbound ta), (inbound_outbound tb) by assumption.
        reflexivity.
      - change ([TX c] ++ (Sleep 50 :: ta) ++ GattWrite c :: tb)
          with ([TX c; Sleep 50] ++ ta ++ [GattWrite c] ++ tb).
        rewrite !existsb_app.
        rewrite (inbound_no_checking ta), (inbound_no_checking tb)
          by assumption.
        reflexivity.
      - change ([TX c] ++ (Sleep 50 :: ta) ++ GattWrite c :: tb)
          with ([TX c; Sleep 50] ++ ta ++ [GattWrite c] ++ tb).
        rewrite !uplink_app.
        rewrite (inbound_uplink ta), (inbound_uplink tb) by assumption.
        reflexivity. }
    destruct H1 as (t1 & R1 & O1 & C1 & U1).
    destruct (IH w1) as (t2 & R2 & O2 & C2 & U2).
    exists (t1 ++ t2). split; [|split; [|split]].
    + replace (2 * length (c :: cs)) with (2 + 2 * length cs)
        by (cbn [length]; lia).
      eapply runs_trans; eassumption.
    + rewrite outbound_app, O1, O2. reflexivity.
    + rewrite existsb_app, C1, C2. reflexivity.
    + rewrite uplink_app, U1, U2. reflexivity.
Qed.

Lemma write_runs data w :
  exists t,
    runs (2 * length (chunks 20 data)) w (snd (write data w)) t /\
    outbound t = paced_writes (chunks 20 data) /\
    existsb sets_checking t = false /\
    uplink t = map GattWrite (chunks 20 data).
Proof. apply write_chunks_runs. Qed.

(** ** Splitting into chunks *)

Lemma chunks_nil n : 0 < n -> chunks n [] = [].
Proof.
  intros Hn. unfold chunks. change (length (@nil byte)) with 0.
  rewrite Nat.add_0_l, Nat.div_small by lia. reflexivity.
Qed.

Lemma chunks_count n (data : bytes) :
  0 < n -> data <> [] ->
  (length data + n - 1) / n = S ((length (skipn n data) + n - 1) / n).
Proof.
  intros Hn Hd. rewrite length_skipn.
  assert (0 < length data) by (destruct data; [congruence|simpl; lia]).
  destruct (Nat.le_gt_cases n (length data)) as [Hle|Hlt].
  - replace (length data + n - 1) with ((length data - n + n - 1) + 1 * n)
      by lia.
    rewrite Nat.div_add by lia. lia.
  - replace (length data - n) with 0 by lia.
    rewrite Nat.add_0_l, (Nat.div_small (n - 1)) by lia.
    replace (length data + n - 1) with ((length data - 1) + 1 * n) by lia.
    rewrite Nat.div_add, Nat.div_small by lia. reflexivity.
Qed.

Lemma chunks_cons n data :
  0 < n -> data <> [] ->
  chunks n data = firstn n data :: chunks n (skipn n data).
Proof.
  intros Hn Hd. unfold chunks. rewrite (chunks_count n data) by assumption.
  cbn [seq map]. f_equal.
  rewrite <- seq_shift, map_map. apply map_ext. intros k.
  unfold slice. rewrite skipn_skipn. do 2 f_equal. lia.
Qed.

(** Induction on the data, one chunk at a time. *)
Lemma chunks_ind n (P : bytes -> Prop) :
  0 < n ->
  P [] ->
  (forall data, data <> [] -> P (skipn n data) -> P data) ->
  forall data, P data.
Proof.
  intros Hn H0 Hs data.
  remember (length data) as m eqn:Hm.
  revert data Hm. induction m as [m IH] using lt_wf_ind. intros data Hm.
  destruct data as [|b data]; [exact H0|].
  apply Hs; [discriminate|].
  apply (IH (length (skipn n (b :: data)))); [|reflexivity].
  rewrite length_skipn. subst m.
  change (length (b :: data)) with (S (length data)). lia.
Qed.

Lemma chunks_concat n data : 0 < n -> concat (chunks n data) = data.
Proof.
  intros Hn. pattern data. apply (chunks_ind n); [assumption| |];
    clear data; [|intros data Hd IH].
  - rewrite chunks_nil by assumption. reflexivity.
  - rewrite chunks_cons by assumption. cbn [concat]. rewrite IH.
    apply firstn_skipn.
Qed.

Lemma chunks_bounds n data :
  0 < n -> Forall (fun c => 0 < length c <= n) (chunks n data).
Proof.
  intros Hn. pattern data. apply (chunks_ind n); [assumption| |];
    clear data; [|intros data Hd IH].
  - rewrite chunks_nil by assumption. constructor.
  - rewrite chunks_cons by assumption. constructor; [|exact IH].
    rewrite length_firstn. destruct data; [congruence|simpl; lia].
Qed.

Lemma chunks_full n data :
  0 < n -> Forall (fun c => length c = n) (removelast (chunks n data)).
Proof.
  intros Hn. pattern data. apply (chunks_ind n); [assumption| |];
    clear data; [|intros data Hd IH].
  - rewrite chunks_nil by assumption. constructor.
  - rewrite chunks_cons by assumption.
    destruct (skipn n data) as [|b rest] eqn:Hsk.
    + rewrite chunks_nil by assumption. constructor.
    + cbn [removelast].
      destruct (chunks n (b :: rest)) as [|c cs] eqn:Hc.
      { rewrite chunks_cons in Hc by (assumption || discriminate).
        discriminate. }
      constructor; [|exact IH].
      rewrite length_firstn.
      assert (n < length data \/ length data <= n) as [Hlt|Hge] by lia;
        [lia|].
      rewrite skipn_all2 in Hsk by assumption. discriminate.
Qed.

(** ** [send_message]: the order of writing and waiting *)

Lemma poll_checksum_trace n : forall w,
  exists t, out (snd (poll_checksum n w)) = out w ++ t /\ uplink t = [].
Proof.
  induction n as [|n IH]; intros w.
  - exists []. cbn. now rewrite app_nil_r.
  - rewrite poll_checksum_S. cbv zeta.
    destruct (sleep_runs 10 w) as (t1 & (O1 & _) & F1).
    change (Sleep 10 :: t1) with ([Sleep 10] ++ t1) in O1.
    pose proof (inbound_uplink t1 F1) as G1.
    set (w1 := snd (sleep 10 w)) in *.
    destruct (reply w1) as [v|].
    + cbn [snd]. rewrite update_state_eq. cbn [snd].
      destruct (hub_state_eqb IDLE (state (set_reply None w1))).
      * exists ([Sleep 10] ++ t1). split; [exact O1|].
        rewrite uplink_app, G1. reflexivity.
      * exists ([Sleep 10] ++ t1 ++ [NewState IDLE]).
        cbn [out set_state emit set_reply].
        rewrite O1, <- !app_assoc. split; [reflexivity|].
        rewrite !uplink_app, G1. reflexivity.
    + destruct (IH w1) as (t2 & O2 & G2).
      exists ([Sleep 10] ++ t1 ++ t2). rewrite O2, O1, <- !app_assoc.
      split; [reflexivity|].
      rewrite !uplink_app, G1, G2. reflexivity.
Qed.

Lemma hub_state_eqb_false a b : a <> b -> hub_state_eqb a b = false.
Proof. intros H. destruct (hub_state_eqb_spec a b); congruence. Qed.

(** C4 (as amended).  For every payload that [send_message] accepts, sent
    by a receiver that is not already in the [CHECKING] phase, the payload
    is written first: the trace up to the change to [CHECKING] holds, as
    its sleeps and transport writes, exactly one 50 ms sleep followed by one
    write for each chunk ([paced_writes]), the chunks being the consecutive
    slices of at most 20 bytes of the payload; no change to [CHECKING] is
    recorded in that part.  Only then, at the start of the checksum wait,
    is [state] set to [CHECKING]; nothing is written afterwards. *)
Theorem send_message_writes_before_checking data w :
  length data <= 100 ->
  state w <> CHECKING ->
  exists t1 t2,
    out (snd (send_message data w)) = out w ++ t1 ++ NewState CHECKING :: t2 /\
    outbound t1 = paced_writes (chunks 20 data) /\
    existsb sets_checking t1 = false /\
    state (snd (write data w)) <> CHECKING /\
    gatt_writes t2 = [] /\
    Forall (fun c => 0 < length c <= 20) (chunks 20 data) /\
    concat (chunks 20 data) = data.
Proof.
  intros Hlen Hst.
  destruct (write_runs data w) as (t1 & (O1 & _ & L1) & P1 & C1 & _).
  destruct (L1 Hst) as (Hst1 & _).
  set (w1 := snd (write data w)) in *.
  pose (w2 := set_state CHECKING (emit (NewState CHECKING) w1)).
  destruct (poll_checksum_trace 50 w2) as (t2 & O2 & G2).
  assert (Hsend : exists t3, out (snd (send_message data w)) =
                             out (snd (poll_checksum 50 w2)) ++ t3 /\
                             gatt_writes t3 = []).
  { unfold send_message.
    destruct (Nat.ltb_spec 100 (length data)); [lia|].
    unfold bind at 1. rewrite write_returns. fold w1.
    unfold bind at 1. rewrite wait_for_checksum_eq, update_state_eq.
    rewrite (hub_state_eqb_false CHECKING (state w1)) by congruence.
    cbn [snd]. fold w2.
    destruct (poll_checksum 50 w2) as [[r|e|] w3]; cbn [snd];
      try (exists []; now rewrite app_nil_r).
    unfold bind, log, modify. cbn [snd].
    exists [Expected (xor_fold data) r].
    destruct r as [v|]; [|split; reflexivity].
    destruct (negb (xor_fold data =? v)%N); split; reflexivity. }
  destruct Hsend as (t3 & O3 & G3).
  exists t1, (t2 ++ t3). repeat split.
  - rewrite O3, O2. subst w2. cbn [out set_state emit]. rewrite O1.
    rewrite <- !app_assoc. reflexivity.
  - exact P1.
  - exact C1.
  - exact Hst1.
  - rewrite gatt_writes_app, (uplink_gatt_writes t2 G2), G3. reflexivity.
  - apply chunks_bounds. lia.
  - apply chunks_concat. lia.
Qed.

(** ** Runs in which nothing arrives *)

Lemma quiet_tl s : quiet s -> quiet (tl s).
Proof. intros H. destruct H; [constructor|assumption]. Qed.

Lemma quiet_skipn n s : quiet s -> quiet (skipn n s).
Proof.
  revert s. induction n as [|n IH]; intros s H; [exact H|].
  destruct H; [constructor|]. simpl. auto.
Qed.

Lemma skipn_S_tl {A} n (l : list A) : skipn (S n) l = skipn n (tl l).
Proof. destruct l; [destruct n; reflexivity|reflexivity]. Qed.

Lemma suspend_quiet w :
  quiet (sched w) -> suspend w = (Returns tt, set_sched (tl (sched w)) w).
Proof.
  intros H. unfold suspend. destruct w as [b st r lf sc o]. cbn in *.
  destruct H as [|s rest Hs _]; [reflexivity|]. subst s. reflexivity.
Qed.

Lemma write_chunks_quiet cs : forall w,
  quiet (sched w) ->
  for_each cs
    (fun chunk => log (TX chunk) ;; sleep 50 ;; write_gatt_char chunk) w =
  (Returns tt,
   mkHub (buf w) (state w) (reply w) (log_file w)
         (skipn (2 * length cs) (sched w)) (out w ++ write_trace cs)).
Proof.
  induction cs as [|c cs IH]; intros w Hq.
  - cbn. rewrite app_nil_r. destruct w; reflexivity.
  - cbn [for_each]. unfold bind at 1.
    unfold bind at 1. unfold log at 1, modify. unfold bind at 1.
    rewrite sleep_eq, suspend_quiet by exact Hq.
    unfold write_gatt_char, bind, log, modify.
    rewrite suspend_quiet by (cbn; apply quiet_tl; exact Hq).
    rewrite IH by (cbn; do 2 apply quiet_tl; exact Hq).
    cbn [buf state reply log_file sched out set_sched emit].
    replace (2 * length (c :: cs)) with (S (S (2 * length cs)))
      by (cbn [length]; lia).
    rewrite !skipn_S_tl. unfold write_trace. cbn [flat_map].
    rewrite <- !app_assoc. reflexivity.
Qed.

Lemma poll_checksum_quiet n : forall w,
  quiet (sched w) -> reply w = None ->
  poll_checksum n w =
  (Raises (TimeoutError "Hub did not return checksum"),
   mkHub (buf w) (state w) None (log_file w) (skipn n (sched w))
         (out w ++ repeat (Sleep 10) n)).
Proof.
  induction n as [|n IH]; intros w Hq Hr.
  - cbn. rewrite app_nil_r. destruct w. cbn in Hr. subst. reflexivity.
  - rewrite poll_checksum_S, sleep_eq, suspend_quiet by exact Hq.
    cbv zeta. cbn [snd reply set_sched emit]. rewrite Hr.
    rewrite IH by (cbn; first [apply quiet_tl; assumption|assumption]).
    cbn [buf state reply log_file sched out set_sched emit].
    rewrite skipn_S_tl. cbn [repeat]. rewrite <- app_assoc. reflexivity.
Qed.

(** C3.  When nothing arrives while a message is sent, [send_message]
    writes the payload, enters [CHECKING], sleeps exactly 50 times for
    10 ms and then raises [TimeoutError] ("Hub did not return checksum").
    The state it leaves behind is [CHECKING]: the timeout path does not go
    back to [IDLE] as the path that receives a reply does. *)
Theorem checksum_timeout_after_50_polls data w :
  length data <= 100 ->
  quiet (sched w) ->
  reply w = None ->
  state w <> CHECKING ->
  send_message data w =
  (Raises (TimeoutError "Hub did not return checksum"),
   mkHub (buf w) CHECKING None (log_file w)
         (skipn (2 * length (chunks 20 data) + 50) (sched w))
         (out w ++ write_trace (chunks 20 data)
                ++ NewState CHECKING :: repeat (Sleep 10) 50)).
Proof.
  intros Hlen Hq Hr Hst. unfold send_message.
  destruct (Nat.ltb_spec 100 (length data)); [lia|].
  unfold bind at 1. unfold write. rewrite write_chunks_quiet by exact Hq.
  unfold bind at 1. rewrite wait_for_checksum_eq, update_state_eq.
  cbn [state]. rewrite (hub_state_eqb_false CHECKING (state w)) by congruence.
  cbn [snd]. rewrite poll_checksum_quiet;
    [|cbn; apply quiet_skipn; exact Hq|cbn; exact Hr].
  cbn [buf state reply log_file sched out set_state emit].
  rewrite skipn_skipn, <- !app_assoc.
  replace (50 + 2 * length (chunks 20 data))
    with (2 * length (chunks 20 data) + 50) by lia.
  reflexivity.
Qed.

(** ** The checksum handshake *)

Lemma poll_checksum_wait q : forall n w rest,
  quiet q -> reply w = None -> sched w = q ++ rest ->
  poll_checksum (length q + n) w =
  poll_checksum n
    (mkHub (buf w) (state w) None (log_file w) rest
           (out w ++ repeat (Sleep 10) (length q))).
Proof.
  induction q as [|s q IH]; intros n w rest Hq Hr Hs.
  - cbn. rewrite app_nil_r. destruct w. cbn in *. subst. reflexivity.
  - inversion Hq as [|s' q' Hs' Hq']; subst.
    cbn [length Nat.add]. rewrite poll_checksum_S, sleep_eq.
    rewrite (suspend_cons _ [] (q ++ rest)) by (cbn; exact Hs).
    cbv zeta. cbn [snd deliver fold_left reply set_sched emit]. rewrite Hr.
    rewrite (IH n _ rest) by (assumption || reflexivity).
    cbn [buf state reply log_file sched out set_sched emit repeat].
    rewrite <- app_assoc. reflexivity.
Qed.

Lemma run_callback_notify_checking w data :
  state w = CHECKING ->
  state (run_callback w (Notify data)) = CHECKING /\
  sched (run_callback w (Notify data)) = sched w.
Proof.
  intros H. unfold run_callback. cbn [callback].
  unfold update_data_buffer. step. rewrite H. cbn.
  destruct (last_byte data); cbn; auto.
Qed.

Lemma deliver_notify_checking evs : forall w,
  Forall is_notify evs -> state w = CHECKING ->
  state (deliver evs w) = CHECKING /\ sched (deliver evs w) = sched w.
Proof.
  unfold deliver.
  induction evs as [|i evs IH]; intros w Hn Hc; [auto|].
  inversion Hn as [|i' evs' (data & ->) Hn']; subst. cbn [fold_left].
  destruct (run_callback_notify_checking w data Hc) as (H1 & H2).
  destruct (IH _ Hn' H1) as (H3 & H4). split; congruence.
Qed.

Lemma deliver_app s1 s2 w : deliver (s1 ++ s2) w = deliver s2 (deliver s1 w).
Proof. apply fold_left_app. Qed.

(** The reply arrives in the slot at the head of the schedule. *)
Lemma poll_checksum_reply n w evs i c rest :
  state w = CHECKING ->
  Forall is_notify evs ->
  sched w = (evs ++ [Notify (i ++ [c])]) :: rest ->
  exists w',
    poll_checksum (S n) w = (Returns (Some (Byte.to_N c)), w') /\
    state w' = IDLE /\ reply w' = None /\ sched w' = rest.
Proof.
  intros Hc Hn Hs. rewrite poll_checksum_S, sleep_eq.
  rewrite (suspend_cons _ _ rest) by (cbn; exact Hs).
  cbv zeta. cbn [snd]. rewrite deliver_app.
  set (w0 := set_sched rest (emit (Sleep 10) w)).
  destruct (deliver_notify_checking evs w0 Hn Hc) as (H1 & H2).
  set (w1 := deliver evs w0) in *.
  cbn [deliver fold_left]. unfold run_callback. cbn [callback].
  rewrite update_data_buffer_checking by exact H1.
  cbn [reply emit set_reply].
  eexists. split; [reflexivity|].
  rewrite update_state_state.
  match goal with
  | |- _ /\ reply (snd (update_state IDLE ?x)) = _ /\ _ =>
      destruct (update_state_frame IDLE x) as (_ & -> & _ & ->)
  end.
  cbn. auto.
Qed.

Lemma send_message_echo P w pre q evs i c rest :
  length P <= 100 ->
  state w <> CHECKING ->
  reply w = None ->
  length pre = 2 * length (chunks 20 P) ->
  quiet q -> length q < 50 ->
  Forall is_notify evs ->
  Byte.to_N c = xor_fold P ->
  sched w = pre ++ q ++ (evs ++ [Notify (i ++ [c])]) :: rest ->
  exists w', send_message P w = (Returns tt, w') /\
             state w' = IDLE /\ reply w' = None /\ sched w' = rest.
Proof.
  intros Hlen Hst Hr Hpre Hq Hk Hn Hc Hs.
  destruct (write_runs P w) as (t1 & (_ & S1 & L1) & _).
  destruct (L1 Hst) as (Hst1 & Hr1).
  set (w1 := snd (write P w)) in *.
  rewrite Hs, <- Hpre, skipn_app, skipn_all, Nat.sub_diag in S1.
  cbn [skipn app] in S1.
  unfold send_message.
  destruct (Nat.ltb_spec 100 (length P)); [lia|].
  unfold bind at 1. rewrite write_returns. fold w1.
  unfold bind at 1. rewrite wait_for_checksum_eq, update_state_eq.
  rewrite (hub_state_eqb_false CHECKING (state w1)) by congruence.
  cbn [snd].
  replace 50 with (length q + S (49 - length q)) by lia.
  rewrite (poll_checksum_wait q _ _ ((evs ++ [Notify (i ++ [c])]) :: rest))
    by (assumption || (cbn; congruence)).
  match goal with
  | |- context [poll_checksum (S ?n) ?x] =>
      destruct (poll_checksum_reply n x evs i c rest)
        as (w' & -> & H1 & H2 & H3);
        [reflexivity|assumption|reflexivity|]
  end.
  unfold bind, log, modify. rewrite Hc, N.eqb_refl. cbn [negb].
  eexists. split; [reflexivity|]. cbn. auto.
Qed.


(** ** Line framing *)

Lemma index_crlf_bound s : forall i,
  index_crlf s = Some i -> i + 2 <= length s.
Proof.
  induction s as [|a s IH]; intros i H; [discriminate|].
  cbn [index_crlf] in H. destruct (at_crlf (a :: s)) eqn:E.
  - inversion H; subst. destruct s; [discriminate|]. simpl. lia.
  - destruct (index_crlf s) as [j|]; [|discriminate].
    inversion H; subst. specialize (IH j eq_refl). simpl. lia.
Qed.

Lemma index_crlf_app s d : forall i,
  index_crlf s = Some i -> index_crlf (s ++ d) = Some i.
Proof.
  induction s as [|a s IH]; intros i H; [discriminate|].
  cbn [index_crlf app] in *.
  destruct s as [|b s].
  - discriminate.
  - change (at_crlf (a :: (b :: s) ++ d)) with (at_crlf (a :: b :: s)).
    destruct (at_crlf (a :: b :: s)); [assumption|].
    destruct (index_crlf (b :: s)) as [j|]; [|discriminate].
    rewrite (IH j eq_refl). assumption.
Qed.

(** The scanner of the specification and [index] agree. *)
Lemma split_stream_none s : forall cur,
  index_crlf s = None -> split_stream cur s = ([], cur ++ s).
Proof.
  induction s as [|a s IH]; intros cur H.
  - cbn. now rewrite app_nil_r.
  - cbn [index_crlf] in H. cbn [split_stream].
    destruct s as [|b s]; [reflexivity|].
    change (at_crlf (a :: b :: s)) with (Byte.eqb a CR && Byte.eqb b LF) in H.
    destruct (Byte.eqb a CR && Byte.eqb b LF); [discriminate|].
    destruct (index_crlf (b :: s)); [discriminate|].
    rewrite IH by reflexivity. now rewrite <- app_assoc.
Qed.

Lemma split_stream_some s : forall cur i,
  index_crlf s = Some i ->
  split_stream cur s =
  ((cur ++ firstn i s) :: spec_lines (skipn (i + 2) s),
   spec_rest (skipn (i + 2) s)).
Proof.
  induction s as [|a s IH]; intros cur i H; [discriminate|].
  cbn [index_crlf] in H. cbn [split_stream].
  destruct s as [|b s]; [discriminate|].
  change (at_crlf (a :: b :: s)) with (Byte.eqb a CR && Byte.eqb b LF) in H.
  destruct (Byte.eqb a CR && Byte.eqb b LF).
  - inversion H; subst. cbn [firstn skipn Nat.add]. rewrite app_nil_r.
    unfold spec_lines, spec_rest.
    destruct (split_stream [] s); reflexivity.
  - destruct (index_crlf (b :: s)) as [j|]; [|discriminate].
    inversion H; subst. rewrite (IH _ j eq_refl).
    cbn [firstn skipn Nat.add]. now rewrite <- app_assoc.
Qed.

Lemma spec_lines_none s : index_crlf s = None -> spec_lines s = [].
Proof. intros H. unfold spec_lines. now rewrite split_stream_none. Qed.

Lemma spec_rest_none s : index_crlf s = None -> spec_rest s = s.
Proof. intros H. unfold spec_rest. now rewrite split_stream_none. Qed.

Lemma spec_lines_some s i :
  index_crlf s = Some i ->
  spec_lines s = firstn i s :: spec_lines (skipn (i + 2) s).
Proof.
  intros H. unfold spec_lines at 1. now rewrite (split_stream_some s [] i).
Qed.

Lemma spec_rest_some s i :
  index_crlf s = Some i -> spec_rest s = spec_rest (skipn (i + 2) s).
Proof.
  intros H. unfold spec_rest at 1. now rewrite (split_stream_some s [] i).
Qed.

(** Induction on a buffer, one extracted line at a time. *)
Lemma lines_ind (P : bytes -> Prop) :
  (forall s, index_crlf s = None -> P s) ->
  (forall s i, index_crlf s = Some i -> P (skipn (i + 2) s) -> P s) ->
  forall s, P s.
Proof.
  intros Hnone Hsome s.
  remember (length s) as m eqn:Hm.
  revert s Hm. induction m as [m IH] using lt_wf_ind. intros s Hm.
  destruct (index_crlf s) as [i|] eqn:E; [|auto].
  apply (Hsome s i E).
  apply (IH (length (skipn (i + 2) s))); [|reflexivity].
  apply index_crlf_bound in E. rewrite length_skipn. lia.
Qed.

Lemma spec_rest_no_line s : index_crlf (spec_rest s) = None.
Proof.
  pattern s. apply lines_ind; clear s.
  - intros s H. now rewrite spec_rest_none.
  - intros s i H IH. now rewrite (spec_rest_some s i).
Qed.

(** Lines already complete are not affected by what arrives later. *)
Lemma spec_lines_app s d :
  spec_lines (s ++ d) = spec_lines s ++ spec_lines (spec_rest s ++ d) /\
  spec_rest (s ++ d) = spec_rest (spec_rest s ++ d).
Proof.
  pattern s. apply lines_ind; clear s.
  - intros s H. rewrite (spec_lines_none s H), (spec_rest_none s H). auto.
  - intros s i H (IH1 & IH2).
    pose proof (index_crlf_bound s i H) as Hb.
    pose proof (index_crlf_app s d i H) as Ha.
    rewrite (spec_lines_some (s ++ d) i Ha), (spec_rest_some (s ++ d) i Ha).
    rewrite (spec_lines_some s i H), (spec_rest_some s i H).
    rewrite skipn_app, firstn_app.
    replace (i + 2 - length s) with 0 by lia.
    replace (i - length s) with 0 by lia.
    cbn [skipn firstn]. rewrite app_nil_r, IH1, IH2. auto.
Qed.

(** ** The dispatcher loop *)

(** Handling a line neither reads nor writes [buf]. *)
Lemma update_state_set_buf s b w :
  update_state s (set_buf b w) =
  (Returns tt, set_buf b (snd (update_state s w))).
Proof.
  rewrite !update_state_eq. cbn [state set_buf snd].
  destruct (hub_state_eqb s (state w)); reflexivity.
Qed.

Lemma process_line_set_buf line b w :
  process_line line (set_buf b w) =
  (fst (process_line line w), set_buf b (snd (process_line line w))).
Proof.
  unfold process_line.
  destruct (decode line) as [t|]; [|reflexivity].
  destruct (contains PB_OF t).
  { step. cbn [log_file set_buf]. destruct (log_file w); [reflexivity|].
    destruct (fs_open (skipn 6 t)); reflexivity. }
  destruct (contains PB_EOF t); step; cbn [log_file set_buf];
    destruct (log_file w); reflexivity.
Qed.

Lemma handle_line_set_buf line b w :
  handle_line line (set_buf b w) =
  (fst (handle_line line w), set_buf b (snd (handle_line line w))).
Proof.
  unfold handle_line. unfold bind at 1 3 5. unfold log, modify.
  change (emit (RX line) (set_buf b w)) with (set_buf b (emit (RX line) w)).
  set (w1 := emit (RX line) w).
  unfold bind. destruct (map_state line) as [s|].
  - rewrite update_state_set_buf, (update_state_returns s w1).
    apply process_line_set_buf.
  - unfold ret. apply process_line_set_buf.
Qed.

Lemma for_each_handle_set_buf ls : forall b w,
  for_each ls handle_line (set_buf b w) =
  (fst (for_each ls handle_line w),
   set_buf b (snd (for_each ls handle_line w))).
Proof.
  induction ls as [|l ls IH]; intros b w; [reflexivity|].
  cbn [for_each]. unfold bind. rewrite handle_line_set_buf.
  destruct (handle_line l w) as [[[]|e|] w1]; cbn [fst snd];
    [apply IH|reflexivity|reflexivity].
Qed.

Lemma set_buf_set_buf a b w : set_buf a (set_buf b w) = set_buf a w.
Proof. reflexivity. Qed.

Lemma set_buf_same w : set_buf (buf w) w = w.
Proof. destruct w; reflexivity. Qed.

Lemma take_line_eq i w :
  take_line i w =
  (fst (handle_line (firstn i (buf w)) w),
   set_buf (skipn (i + 2) (buf w)) (snd (handle_line (firstn i (buf w)) w))).
Proof.
  unfold take_line. unfold bind at 1. unfold gets. cbv zeta.
  unfold bind at 1. unfold modify. apply handle_line_set_buf.
Qed.

Lemma process_line_total line w : fst (process_line line w) <> Hangs.
Proof.
  unfold process_line.
  destruct (decode line) as [t|]; [|discriminate].
  destruct (contains PB_OF t).
  { step. destruct (log_file w); [discriminate|].
    destruct (fs_open (skipn 6 t)); discriminate. }
  destruct (contains PB_EOF t); step; destruct (log_file w); discriminate.
Qed.

Lemma handle_line_total line w : fst (handle_line line w) <> Hangs.
Proof.
  unfold handle_line. unfold bind at 1. unfold log, modify.
  unfold bind. destruct (map_state line) as [s|].
  - rewrite update_state_returns. apply process_line_total.
  - apply process_line_total.
Qed.

(** With [length buf] rounds the loop of [update_data_buffer] always comes
    to its end. *)
Lemma extract_lines_total fuel : forall w,
  length (buf w) <= fuel -> fst (extract_lines fuel w) <> Hangs.
Proof.
  induction fuel as [|fuel IH]; intros w Hf; cbn [extract_lines];
    destruct (index_crlf (buf w)) as [i|] eqn:E; try discriminate.
  - apply index_crlf_bound in E. lia.
  - rewrite take_line_eq.
    pose proof (handle_line_total (firstn i (buf w)) w) as Ht.
    destruct (handle_line (firstn i (buf w)) w) as [[[]|e|] w1];
      cbn [fst snd] in *.
    + apply IH. cbn [buf set_buf]. rewrite length_skipn.
      apply index_crlf_bound in E. lia.
    + destruct (is_ValueError e); discriminate.
    + congruence.
Qed.

Lemma update_data_buffer_total data w :
  fst (update_data_buffer data w) <> Hangs.
Proof.
  unfold update_data_buffer. step.
  destruct (hub_state_eqb (state w) CHECKING).
  - destruct (last_byte data); discriminate.
  - apply extract_lines_total. reflexivity.
Qed.

(** When no line makes the Line Processor raise, the loop hands over the
    lines of the buffer one by one and keeps the unterminated rest. *)
Lemma extract_lines_spec fuel : forall w,
  length (buf w) <= fuel ->
  fst (for_each (spec_lines (buf w)) handle_line w) = Returns tt ->
  extract_lines fuel w =
  (Returns tt,
   set_buf (spec_rest (buf w))
           (snd (for_each (spec_lines (buf w)) handle_line w))).
Proof.
  induction fuel as [|fuel IH]; intros w Hf Hok; cbn [extract_lines];
    destruct (index_crlf (buf w)) as [i|] eqn:E.
  - apply index_crlf_bound in E. lia.
  - rewrite spec_lines_none, spec_rest_none by assumption.
    cbn. now rewrite set_buf_same.
  - rewrite (spec_lines_some _ i E) in *. rewrite (spec_rest_some _ i E).
    cbn [for_each] in *. unfold bind in *. rewrite take_line_eq.
    set (line := firstn i (buf w)) in *.
    set (b1 := skipn (i + 2) (buf w)) in *.
    destruct (handle_line line w) as [[[]|e|] w1]; cbn [fst snd] in *;
      try discriminate.
    specialize (IH (set_buf b1 w1)). cbn [buf set_buf] in IH.
    rewrite for_each_handle_set_buf in IH. cbn [fst snd] in IH.
    rewrite IH; [reflexivity| |assumption].
    subst b1. rewrite length_skipn. apply index_crlf_bound in E. lia.
  - rewrite spec_lines_none, spec_rest_none by assumption.
    cbn. now rewrite set_buf_same.
Qed.

Lemma for_each_app {A} (body : A -> M unit) l1 l2 w :
  for_each (l1 ++ l2) body w = (for_each l1 body ;; for_each l2 body) w.
Proof.
  revert w. induction l1 as [|x l1 IH]; intros w; cbn [for_each app].
  - reflexivity.
  - unfold bind in *. destruct (body x w) as [[[]|e|] w1]; auto.
Qed.

Lemma update_data_buffer_lines data w :
  state w <> CHECKING ->
  fst (for_each (spec_lines (buf w ++ data)) handle_line w) = Returns tt ->
  update_data_buffer data w =
  (Returns tt,
   set_buf (spec_rest (buf w ++ data))
           (snd (for_each (spec_lines (buf w ++ data)) handle_line w))).
Proof.
  intros Hst Hok. unfold update_data_buffer. step.
  rewrite (hub_state_eqb_false _ _ Hst).
  rewrite extract_lines_spec; cbn [buf set_buf];
    rewrite ?for_each_handle_set_buf; cbn [fst snd]; auto.
Qed.

(** Delivering a stream in fragments, to a receiver in line mode whose
    buffer holds no complete line: when no line makes the Line Processor
    raise, the outcome is that of handling the lines of the whole stream
    in order. *)
Lemma deliver_fragments frags : forall w,
  state w <> CHECKING ->
  index_crlf (buf w) = None ->
  fst (for_each (spec_lines (buf w ++ concat frags)) handle_line w)
  = Returns tt ->
  deliver (map Notify frags) w =
  set_buf (spec_rest (buf w ++ concat frags))
          (snd (for_each (spec_lines (buf w ++ concat frags)) handle_line w)).
Proof.
  induction frags as [|f frags IH]; intros w Hst Hb Hok.
  - cbn [concat map deliver fold_left]. rewrite app_nil_r.
    rewrite spec_lines_none, spec_rest_none by assumption.
    cbn. now rewrite set_buf_same.
  - cbn [concat map] in *. unfold deliver in *. cbn [fold_left].
    rewrite app_assoc in *.
    destruct (spec_lines_app (buf w ++ f) (concat frags)) as (E1 & E2).
    rewrite E1, E2 in *. clear E1 E2.
    set (L1 := spec_lines (buf w ++ f)) in *.
    set (R1 := spec_rest (buf w ++ f)) in *.
    set (L2 := spec_lines (R1 ++ concat frags)) in *.
    rewrite for_each_app in *. unfold bind in *.
    destruct (for_each L1 handle_line w) as [[[]|e|] wa] eqn:Ea;
      cbn [fst snd] in *; try discriminate.
    unfold run_callback at 2. cbn [callback].
    rewrite update_data_buffer_lines by (fold L1; rewrite ?Ea; auto).
    fold L1 R1. rewrite Ea. cbn [snd].
    assert (Hst1 : state (set_buf R1 wa) <> CHECKING).
    { pose proof (update_data_buffer_step f w) as (_ & _ & L).
      rewrite update_data_buffer_lines in L by (fold L1; rewrite ?Ea; auto).
      fold L1 R1 in L. rewrite Ea in L. cbn [snd] in L. apply (L Hst). }
    rewrite (IH (set_buf R1 wa)); cbn [buf set_buf];
      rewrite ?for_each_handle_set_buf; cbn [fst snd];
      [reflexivity|exact Hst1|apply spec_rest_no_line|exact Hok].
Qed.

Lemma rx_lines_app t1 t2 : rx_lines (t1 ++ t2) = rx_lines t1 ++ rx_lines t2.
Proof. apply flat_map_app. Qed.

Lemma rx_lines_emit e w :
  rx_lines (out (emit e w)) =
  rx_lines (out w) ++ match e with RX l => [l] | _ => [] end.
Proof.
  cbn [out emit]. rewrite rx_lines_app. cbn. now rewrite app_nil_r.
Qed.

Ltac rx_norm :=
  cbn [snd out set_log_file set_state];
  repeat (rewrite rx_lines_emit; cbn [app]; rewrite ?app_nil_r).

Lemma process_line_rx line w :
  rx_lines (out (snd (process_line line w))) = rx_lines (out w).
Proof.
  unfold process_line.
  destruct (decode line) as [t|]; [|reflexivity].
  destruct (contains PB_OF t).
  { step. destruct (log_file w); [reflexivity|].
    destruct (fs_open (skipn 6 t)); now rx_norm. }
  destruct (contains PB_EOF t); step; destruct (log_file w); now rx_norm.
Qed.

Lemma handle_line_rx line w :
  rx_lines (out (snd (handle_line line w))) = rx_lines (out w) ++ [line].
Proof.
  unfold handle_line. unfold bind at 1. unfold log, modify.
  unfold bind. destruct (map_state line) as [s|].
  - rewrite update_state_returns, process_line_rx, update_state_eq.
    cbn [snd state emit].
    destruct (hub_state_eqb s (state w)); now rx_norm.
  - unfold ret. rewrite process_line_rx. now rx_norm.
Qed.

Lemma for_each_handle_rx ls : forall w,
  fst (for_each ls handle_line w) = Returns tt ->
  rx_lines (out (snd (for_each ls handle_line w))) = rx_lines (out w) ++ ls.
Proof.
  induction ls as [|l ls IH]; intros w H; cbn [for_each] in *.
  - cbn. now rewrite app_nil_r.
  - unfold bind in *. pose proof (handle_line_rx l w) as Hl.
    destruct (handle_line l w) as [[[]|e|] w1]; cbn [fst snd] in *;
      try discriminate.
    rewrite IH, Hl, <- app_assoc by assumption. reflexivity.
Qed.

(** C2 (as amended).  Take a receiver outside the [CHECKING] phase whose
    buffer holds no complete line, and any sequence of fragments such that
    the Line Processor raises on none of the lines of the stream (buffer
    followed by the fragments).  Then the dispatcher hands over exactly the
    lines of that stream that are terminated by CR LF, in order, and keeps
    the unterminated rest in [buf]; the receiver ends as if the lines of
    the whole stream had been handled one after the other, so nothing
    depends on where the stream was cut into fragments.  In particular
    any way of delivering [abc CR LF def CR LF] yields the two lines [abc]
    and [def]. *)
Theorem lines_independent_of_fragments :
  (forall frags w,
     state w <> CHECKING ->
     index_crlf (buf w) = None ->
     fst (for_each (spec_lines (buf w ++ concat frags)) handle_line w)
     = Returns tt ->
     let w' := deliver (map Notify frags) w in
     rx_lines (out w') = rx_lines (out w) ++ spec_lines (buf w ++ concat frags) /\
     buf w' = spec_rest (buf w ++ concat frags) /\
     w' = set_buf (spec_rest (buf w ++ concat frags))
            (snd (for_each (spec_lines (buf w ++ concat frags))
                           handle_line w))) /\
  (forall frags1 frags2 w,
     state w <> CHECKING ->
     index_crlf (buf w) = None ->
     concat frags1 = concat frags2 ->
     fst (for_each (spec_lines (buf w ++ concat frags1)) handle_line w)
     = Returns tt ->
     deliver (map Notify frags1) w = deliver (map Notify frags2) w) /\
  (forall frags w,
     state w <> CHECKING ->
     buf w = [] ->
     concat frags = bytes_of "abc" ++ CRLF ++ bytes_of "def" ++ CRLF ->
     rx_lines (out (deliver (map Notify frags) w)) =
     rx_lines (out w) ++ [bytes_of "abc"; bytes_of "def"]).
Proof.
  assert (Main : forall frags w,
     state w <> CHECKING ->
     index_crlf (buf w) = None ->
     fst (for_each (spec_lines (buf w ++ concat frags)) handle_line w)
     = Returns tt ->
     let w' := deliver (map Notify frags) w in
     rx_lines (out w') = rx_lines (out w) ++ spec_lines (buf w ++ concat frags) /\
     buf w' = spec_rest (buf w ++ concat frags) /\
     w' = set_buf (spec_rest (buf w ++ concat frags))
            (snd (for_each (spec_lines (buf w ++ concat frags))
                           handle_line w))).
  { intros frags w Hst Hb Hok. cbv zeta.
    rewrite (deliver_fragments frags w Hst Hb Hok).
    cbn [out buf set_buf]. rewrite for_each_handle_rx by assumption. auto. }
  split; [exact Main|split].
  { intros frags1 frags2 w Hst Hb Hc Hok.
    rewrite (deliver_fragments frags1 w Hst Hb Hok).
    rewrite Hc in *. now rewrite (deliver_fragments frags2 w Hst Hb Hok). }
  intros frags w Hst Hb Hc.
  destruct (Main frags w Hst) as (H & _).
  - rewrite Hb. reflexivity.
  - rewrite Hb, Hc. destruct w as [b st r lf sc o]. cbn in Hst.
    destruct lf; reflexivity.
  - rewrite H, Hb, Hc. reflexivity.
Qed.

(** ** [download_and_run] *)

Lemma to_N_byte_of_N n : Byte.to_N (byte_of_N n) = (n mod 256)%N.
Proof.
  unfold byte_of_N. destruct (Byte.of_N (n mod 256)) as [b|] eqn:E.
  - now apply Byte.to_of_N.
  - apply Byte.of_N_None_iff in E.
    pose proof (N.mod_upper_bound n 256). lia.
Qed.

Lemma to_bytes4_none k : (2 ^ 32 <= k)%N -> to_bytes4 k = None.
Proof.
  intros H. unfold to_bytes4.
  destruct (N.ltb_spec k (2 ^ 32)); [lia|reflexivity].
Qed.

Lemma to_bytes4_some k :
  (k < 2 ^ 32)%N ->
  exists b, to_bytes4 k = Some b /\ length b = 4 /\ from_bytes_le b = k.
Proof.
  intros H. unfold to_bytes4.
  destruct (N.ltb_spec k (2 ^ 32)); [|lia].
  eexists. split; [reflexivity|]. split; [reflexivity|].
  cbn [from_bytes_le fold_right]. rewrite !to_N_byte_of_N.
  change (2 ^ 8)%N with 256%N.
  change (2 ^ 16)%N with (256 * 256)%N.
  change (2 ^ 24)%N with (256 * 256 * 256)%N.
  change (2 ^ 32)%N with 4294967296%N in H.
  rewrite <- !N.Div0.div_div.
  pose proof (N.Div0.div_mod k 256) as D0.
  pose proof (N.Div0.div_mod (k / 256) 256) as D1.
  pose proof (N.Div0.div_mod (k / 256 / 256) 256) as D2.
  pose proof (N.mod_upper_bound k 256) as B0.
  pose proof (N.mod_upper_bound (k / 256) 256) as B1.
  pose proof (N.mod_upper_bound (k / 256 / 256) 256) as B2.
  assert (B3 : (k / 256 / 256 / 256 < 256)%N).
  { rewrite !N.Div0.div_div. apply N.Div0.div_lt_upper_bound. lia. }
  rewrite (N.mod_small (k / 256 / 256 / 256) 256) by exact B3.
  pose proof (N.Div0.div_mod (k / 256 / 256) 256).
  lia.
Qed.

Lemma send_message_uplink data w w' :
  send_message data w = (Returns tt, w') ->
  exists t, out w' = out w ++ t /\ uplink t = message_trace data.
Proof.
  unfold send_message.
  destruct (Nat.ltb_spec 100 (length data)); [discriminate|].
  destruct (write_runs data w) as (t1 & (O1 & _) & _ & _ & U1).
  unfold bind at 1. rewrite write_returns.
  set (w1 := snd (write data w)) in *.
  unfold bind at 1. rewrite wait_for_checksum_eq.
  set (w2 := snd (update_state CHECKING w1)).
  assert (O2 : exists t2, out w2 = out w1 ++ t2 /\ uplink t2 = []).
  { subst w2. rewrite update_state_eq. cbn [snd].
    destruct (hub_state_eqb CHECKING (state w1)).
    - exists []. now rewrite app_nil_r.
    - exists [NewState CHECKING]. auto. }
  destruct O2 as (t2 & O2 & U2).
  destruct (poll_checksum_trace 50 w2) as (t3 & O3 & U3).
  destruct (poll_checksum 50 w2) as [[r|e|] w3]; cbn [fst snd] in *;
    try discriminate.
  unfold bind, log, modify.
  destruct r as [v|]; [|discriminate].
  destruct (N.eqb_spec (xor_fold data) v) as [<-|]; [|discriminate].
  cbn [negb]. unfold ret. intros E. inversion E; subst w'. clear E.
  exists (t1 ++ t2 ++ t3 ++ [Expected (xor_fold data) (Some (xor_fold data))]).
  split.
  - cbn [out emit]. rewrite O3, O2, O1, <- !app_assoc. reflexivity.
  - rewrite !uplink_app, U1, U2, U3. reflexivity.
Qed.

(** The loop over the protocol chunks with a transport that echoes. *)
Lemma send_chunks_acks total l : forall w s rest,
  acks (map snd l) s rest ->
  sched w = s -> state w = IDLE -> reply w = None ->
  Forall (fun ic => length (snd ic) <= 100) l ->
  exists w1,
    for_each l (send_chunk total) w = (Returns tt, w1) /\
    sched w1 = rest /\ state w1 = IDLE /\ reply w1 = None /\
    uplink (out w1) =
    uplink (out w) ++
    flat_map (fun ic => Sending (fst ic + 1) total :: message_trace (snd ic)) l.
Proof.
  induction l as [|[k m] l IH]; intros w s rest Ha Hs Hst Hr Hl.
  - inversion Ha; subst. exists w. cbn. rewrite app_nil_r. auto.
  - cbn [map snd] in Ha.
    inversion Ha as [|m' ms pre q evs i c s' rest' Hpre Hq Hk Hn Hc Ha']; subst.
    inversion Hl as [|x l' Hm Hl']; subst. cbn [snd] in Hm.
    cbn [for_each]. unfold bind at 1. unfold send_chunk at 1.
    unfold bind at 1. unfold log, modify. cbn [fst snd].
    set (w0 := emit (Sending (k + 1) total) w).
    destruct (send_message_echo m w0 pre q evs i c s')
      as (w1 & E & E1 & E2 & E3); try assumption;
      try (subst w0; cbn; congruence).
    destruct (send_message_uplink m w0 w1 E) as (t & Ot & Ut).
    rewrite E.
    destruct (IH w1 s' rest Ha' E3 E1 E2 Hl') as (w2 & F & F1 & F2 & F3 & F4).
    exists w2. rewrite F. repeat split; try assumption.
    rewrite F4, Ot. subst w0. cbn [out emit flat_map fst snd].
    rewrite !uplink_app, Ut, <- !app_assoc. reflexivity.
Qed.

Lemma enumerate_snd {A} (l : list A) : map snd (enumerate l) = l.
Proof.
  unfold enumerate. generalize 0.
  induction l as [|x l IH]; intros k; [reflexivity|].
  cbn. now rewrite IH.
Qed.

Lemma enumerate_Forall {A} (P : A -> Prop) (l : list A) :
  Forall P l -> Forall (fun ic => P (snd ic)) (enumerate l).
Proof.
  intros H. apply Forall_map. rewrite enumerate_snd. exact H.
Qed.

Lemma download_and_run_eq mpy b :
  to_bytes4 (N.of_nat (length mpy)) = Some b ->
  download_and_run mpy =
  (send_message b ;;
   for_each (enumerate (chunks 100 mpy))
            (send_chunk (length (chunks 100 mpy))) ;;
   wait_until_not_running).
Proof. intros H. unfold download_and_run. rewrite H. reflexivity. Qed.

Lemma chunks_250 (mpy : bytes) :
  length mpy = 250 -> map (@length byte) (chunks 100 mpy) = [100; 100; 50].
Proof.
  intros H.
  assert (N : forall l : bytes, 0 < length l -> l <> [])
    by (intros [|] ?; [simpl in *; lia|discriminate]).
  rewrite (chunks_cons 100 mpy) by (try apply N; lia).
  rewrite (chunks_cons 100 (skipn 100 mpy))
    by (try apply N; rewrite ?length_skipn; lia).
  rewrite (chunks_cons 100 (skipn 100 (skipn 100 mpy)))
    by (try apply N; rewrite ?length_skipn; lia).
  assert (E : skipn 100 (skipn 100 (skipn 100 mpy)) = []).
  { apply length_zero_iff_nil. rewrite !length_skipn. lia. }
  rewrite E, chunks_nil by lia.
  cbn [map]. rewrite !length_firstn, !length_skipn, H. reflexivity.
Qed.

Lemma enumerate_nth {A} (l : list A) k c :
  nth_error l k = Some c -> nth_error (enumerate l) k = Some (k, c).
Proof.
  unfold enumerate. change k with (0 + k) at 3. generalize 0.
  revert k. induction l as [|x l IH]; intros [|k] s H; try discriminate.
  - inversion H; subst. cbn. now rewrite Nat.add_0_r.
  - cbn in *. rewrite (IH k (S s) H). do 2 f_equal. lia.
Qed.

Lemma for_each_abort {A} (body : A -> M unit) l k x w w1 e w2 :
  nth_error l k = Some x ->
  for_each (firstn k l) body w = (Returns tt, w1) ->
  body x w1 = (Raises e, w2) ->
  for_each l body w = (Raises e, w2).
Proof.
  intros Hn H1 H2.
  destruct (nth_error_split l k Hn) as (l1 & l2 & -> & <-).
  rewrite firstn_app, firstn_all, Nat.sub_diag in H1.
  cbn [firstn] in H1. rewrite app_nil_r in H1.
  rewrite for_each_app. unfold bind. rewrite H1.
  cbn [for_each]. unfold bind. rewrite H2. reflexivity.
Qed.

(** C6 (as amended).  A program of 2^32 bytes or more is refused with
    [OverflowError] before anything is sent: the receiver is unchanged.
    For a program of fewer than 2^32 bytes, [download_and_run] is: send
    the length as one message of 4 bytes, little-endian; then the program
    in protocol chunks, consecutive slices of 100 bytes, the last one
    possibly shorter (250 bytes give 100, 100 and 50), one [send_message]
    after the other; then [wait_until_not_running].  Started outside the
    [CHECKING] phase with no stale reply and with a transport that echoes
    every checksum ([acks]), every message is written and acknowledged
    before the next one is announced, in order, and the call then
    continues as [wait_until_not_running].  A failure of the length
    message or of any chunk ends the call with that error, in the state
    the failure left; nothing more is sent. *)
Theorem download_and_run_protocol mpy :
  ((2 ^ 32 <= N.of_nat (length mpy))%N ->
   forall w, download_and_run mpy w = (Raises OverflowError, w)) /\
  ((N.of_nat (length mpy) < 2 ^ 32)%N ->
  exists prefix,
    to_bytes4 (N.of_nat (length mpy)) = Some prefix /\
    length prefix = 4 /\
    from_bytes_le prefix = N.of_nat (length mpy) /\
    concat (chunks 100 mpy) = mpy /\
    Forall (fun c => 0 < length c <= 100) (chunks 100 mpy) /\
    Forall (fun c => length c = 100) (removelast (chunks 100 mpy)) /\
    (length mpy = 250 ->
     map (@length byte) (chunks 100 mpy) = [100; 100; 50]) /\
    (forall w rest,
       state w <> CHECKING -> reply w = None ->
       acks (prefix :: chunks 100 mpy) (sched w) rest ->
       exists w1,
         download_and_run mpy w = wait_until_not_running w1 /\
         sched w1 = rest /\ state w1 = IDLE /\ reply w1 = None /\
         uplink (out w1) =
         uplink (out w) ++ message_trace prefix
                        ++ progress_trace (chunks 100 mpy)) /\
    (forall w e w',
       send_message prefix w = (Raises e, w') ->
       download_and_run mpy w = (Raises e, w')) /\
    (forall w k c w1 e w2,
       nth_error (chunks 100 mpy) k = Some c ->
       (send_message prefix ;;
        for_each (firstn k (enumerate (chunks 100 mpy)))
                 (send_chunk (length (chunks 100 mpy)))) w
       = (Returns tt, w1) ->
       send_chunk (length (chunks 100 mpy)) (k, c) w1 = (Raises e, w2) ->
       download_and_run mpy w = (Raises e, w2)) /\
    download_and_run mpy =
    (send_message prefix ;;
     for_each (enumerate (chunks 100 mpy))
              (send_chunk (length (chunks 100 mpy))) ;;
     wait_until_not_running)).
Proof.
  split.
  { intros Hlen w. unfold download_and_run.
    rewrite (to_bytes4_none _ Hlen). reflexivity. }
  intros Hlen.
  destruct (to_bytes4_some _ Hlen) as (prefix & Hp & Hp4 & Hle).
  exists prefix.
  pose proof (chunks_bounds 100 mpy ltac:(lia)) as Hb.
  repeat split; try assumption.
  - apply chunks_concat. lia.
  - apply chunks_full. lia.
  - apply chunks_250.
  - intros w rest Hst Hr Ha.
    rewrite (download_and_run_eq mpy prefix Hp).
    inversion Ha as [|m ms pre q evs i c s rest' Hpre Hq Hk Hn Hc Ha' E1 E2];
      subst.
    destruct (send_message_echo prefix w pre q evs i c s)
      as (w1 & E & S1 & S2 & S3); try assumption; try congruence; [lia|].
    destruct (send_message_uplink prefix w w1 E) as (t & Ot & Ut).
    destruct (send_chunks_acks (length (chunks 100 mpy))
                (enumerate (chunks 100 mpy)) w1 s rest)
      as (w2 & F & F1 & F2 & F3 & F4); try assumption.
    + rewrite enumerate_snd. exact Ha'.
    + apply (enumerate_Forall (fun c => length c <= 100)).
      eapply Forall_impl; [|exact Hb]. cbn. intros. lia.
    + exists w2. unfold bind at 1. rewrite E.
      unfold bind at 1. rewrite F.
      repeat split; try assumption.
      rewrite F4, Ot, uplink_app, Ut, <- app_assoc. reflexivity.
  - intros w e w' H. rewrite (download_and_run_eq mpy prefix Hp).
    unfold bind at 1. rewrite H. reflexivity.
  - intros w k c w1 e w2 Hn H1 H2.
    rewrite (download_and_run_eq mpy prefix Hp).
    unfold bind at 1 in H1. unfold bind at 1.
    destruct (send_message prefix w) as [[[]|e0|] wa]; try discriminate.
    unfold bind at 1.
    rewrite (for_each_abort _ _ k (k, c) wa w1 e w2);
      [reflexivity|now apply enumerate_nth|exact H1|exact H2].
  - apply (download_and_run_eq mpy prefix Hp).
Qed.

(** ** [wait_until_not_running] *)

(** [Hangs] is only reported for a loop that really goes on for ever: the
    schedule is used up and the state is still [RUNNING]. *)
Lemma poll_not_running_hangs fuel : forall w w',
  length (sched w) < fuel ->
  poll_not_running fuel w = (Hangs, w') ->
  sched w' = [] /\ state w' = RUNNING.
Proof.
  induction fuel as [|fuel IH]; intros w w' Hf H; [lia|].
  cbn [poll_not_running] in H. unfold bind at 1 in H.
  rewrite sleep_returns in H.
  destruct (sleep_runs 100 w) as (t & (_ & S1 & _) & _).
  set (w1 := snd (sleep 100 w)) in *.
  unfold bind, gets in H.
  destruct (hub_state_eqb_spec (state w1) RUNNING) as [E|E];
    [|discriminate].
  destruct fuel as [|fuel].
  - cbn in H. inversion H; subst w'. split; [|exact E].
    rewrite S1. destruct (sched w) as [|x [|y l]]; cbn in *; auto; lia.
  - apply (IH w1 w'); [|exact H].
    rewrite S1, length_skipn. lia.
Qed.

Lemma wait_until_not_running_hangs w w' :
  wait_until_not_running w = (Hangs, w') ->
  sched w' = [] /\ state w' = RUNNING.
Proof.
  unfold wait_until_not_running, bind. rewrite sleep_returns.
  apply poll_not_running_hangs. lia.
Qed.

Lemma wait_until_not_running_returns w w' :
  wait_until_not_running w = (Returns tt, w') -> state w' <> RUNNING.
Proof.
  unfold wait_until_not_running, bind. rewrite sleep_returns.
  generalize (S (length (sched (snd (sleep 500 w))))).
  generalize (snd (sleep 500 w)). intros w0 fuel. revert w0.
  induction fuel as [|fuel IH]; intros w0 H; [discriminate|].
  cbn [poll_not_running] in H. unfold bind at 1 in H.
  rewrite sleep_returns in H. unfold bind, gets in H.
  destruct (hub_state_eqb_spec (state (snd (sleep 100 w0))) RUNNING).
  - eauto.
  - inversion H; subst. assumption.
Qed.

(** ** Further properties of the dispatcher *)

Lemma process_line_frame line w :
  let w' := snd (process_line line w) in
  buf w' = buf w /\ state w' = state w /\ reply w' = reply w /\
  sched w' = sched w.
Proof.
  unfold process_line.
  destruct (decode line) as [t|]; [|cbn; auto].
  destruct (contains PB_OF t).
  { step. destruct (log_file w); [cbn; auto|].
    destruct (fs_open (skipn 6 t)); cbn; auto. }
  destruct (contains PB_EOF t); step; destruct (log_file w); cbn; auto.
Qed.

Lemma handle_line_frame line w :
  let w' := snd (handle_line line w) in
  buf w' = buf w /\
  state w' = match map_state line with Some s => s | None => state w end.
Proof.
  unfold handle_line. unfold bind at 1. unfold log, modify.
  unfold bind. destruct (map_state line) as [s|].
  - rewrite update_state_returns.
    destruct (process_line_frame line
                (snd (update_state s (emit (RX line) w)))) as (B & S & _).
    cbv zeta in *. rewrite B, S, update_state_state.
    destruct (update_state_frame s (emit (RX line) w)) as (-> & _).
    auto.
  - unfold ret.
    destruct (process_line_frame line (emit (RX line) w)) as (B & S & _).
    cbv zeta in *. rewrite B, S. auto.
Qed.

Lemma index_crlf_split b : forall i,
  index_crlf b = Some i ->
  b = firstn i b ++ CRLF ++ skipn (i + 2) b /\
  index_crlf (firstn i b) = None.
Proof.
  induction b as [|x b IH]; intros i H; [discriminate|].
  cbn [index_crlf] in H. destruct (at_crlf (x :: b)) eqn:E.
  - inversion H; subst. destruct b as [|y b]; [discriminate|].
    cbn in E. apply andb_true_iff in E. destruct E as (E1 & E2).
    apply Byte.byte_dec_bl in E1, E2. subst. auto.
  - destruct (index_crlf b) as [j|] eqn:Ej; [|discriminate].
    inversion H; subst. destruct (IH j eq_refl) as (Hb & Hn).
    cbn [firstn skipn Nat.add app]. split; [now rewrite <- Hb|].
    cbn [index_crlf]. rewrite Hn.
    replace (at_crlf (x :: firstn j b)) with false; [reflexivity|].
    symmetry. destruct b as [|y b]; [discriminate|].
    destruct j as [|j]; [reflexivity|].
    cbn [firstn]. exact E.
Qed.

Lemma last_status_app l1 l2 s :
  last_status (l1 ++ l2) s = last_status l2 (last_status l1 s).
Proof. apply fold_left_app. Qed.

Lemma frame_app l1 l2 : frame (l1 ++ l2) = frame l1 ++ frame l2.
Proof. apply flat_map_app. Qed.

(** What the loop has done when it stops, however it stops. *)
Lemma extract_lines_account fuel : forall w,
  exists ls,
    rx_lines (out (snd (extract_lines fuel w))) = rx_lines (out w) ++ ls /\
    frame ls ++ buf (snd (extract_lines fuel w)) = buf w /\
    Forall (fun l => index_crlf l = None) ls /\
    state (snd (extract_lines fuel w)) = last_status ls (state w).
Proof.
  induction fuel as [|fuel IH]; intros w; cbn [extract_lines];
    destruct (index_crlf (buf w)) as [i|] eqn:E;
    try (exists []; cbn; rewrite app_nil_r; now auto).
  rewrite take_line_eq.
  destruct (index_crlf_split _ _ E) as (Hb & Hn).
  set (line := firstn i (buf w)) in *.
  pose proof (handle_line_rx line w) as Hrx.
  destruct (handle_line_frame line w) as (Hbuf & Hst). cbv zeta in *.
  set (rest := skipn (i + 2) (buf w)) in *.
  assert (One : let wa := set_buf rest (snd (handle_line line w)) in
                rx_lines (out wa) = rx_lines (out w) ++ [line] /\
                frame [line] ++ buf wa = buf w /\
                Forall (fun l => index_crlf l = None) [line] /\
                state wa = last_status [line] (state w)).
  { cbv zeta. cbn [out buf state set_buf]. rewrite Hrx, Hst.
    repeat split; auto.
    unfold frame. cbn [flat_map]. rewrite app_nil_r, <- app_assoc.
    symmetry. exact Hb. }
  destruct (handle_line line w) as [[[]|e|] w1]; cbn [fst snd] in *.
  - destruct (IH (set_buf rest w1)) as (ls & R1 & R2 & R3 & R4).
    destruct One as (O1 & O2 & O3 & O4).
    exists (line :: ls). rewrite R1, O1, R4, O4, <- app_assoc.
    split; [reflexivity|split; [|split; [|reflexivity]]].
    + change (line :: ls) with ([line] ++ ls).
      rewrite frame_app, <- app_assoc, R2. exact O2.
    + constructor; [exact Hn|exact R3].
  - exists [line]. destruct (is_ValueError e); exact One.
  - exists [line]. exact One.
Qed.

Lemma rx_lines_uncaught e w :
  rx_lines (out (emit (Uncaught e) w)) = rx_lines (out w).
Proof. rewrite rx_lines_emit. apply app_nil_r. Qed.

Lemma deliver_account frags : forall w,
  state w <> CHECKING ->
  exists ls,
    rx_lines (out (deliver (map Notify frags) w)) = rx_lines (out w) ++ ls /\
    frame ls ++ buf (deliver (map Notify frags) w) = buf w ++ concat frags /\
    Forall (fun l => index_crlf l = None) ls /\
    state (deliver (map Notify frags) w) = last_status ls (state w).
Proof.
  induction frags as [|f frags IH]; intros w Hst.
  - exists []. cbn. rewrite !app_nil_r. auto.
  - cbn [map concat]. unfold deliver. cbn [fold_left].
    fold (deliver (map Notify frags) (run_callback w (Notify f))).
    assert (One : exists l1,
               let w1 := run_callback w (Notify f) in
               rx_lines (out w1) = rx_lines (out w) ++ l1 /\
               frame l1 ++ buf w1 = buf w ++ f /\
               Forall (fun l => index_crlf l = None) l1 /\
               state w1 = last_status l1 (state w)).
    { unfold run_callback. cbn [callback].
      assert (U : update_data_buffer f w =
                  extract_lines (length (buf w ++ f))
                                (set_buf (buf w ++ f) w)).
      { unfold update_data_buffer. step.
        now rewrite (hub_state_eqb_false _ _ Hst). }
      rewrite U.
      destruct (extract_lines_account (length (buf w ++ f))
                  (set_buf (buf w ++ f) w)) as (l1 & A).
      exists l1.
      destruct (extract_lines (length (buf w ++ f)) (set_buf (buf w ++ f) w))
        as [[[]|e|] w1]; cbn [snd] in A; cbv zeta; try exact A.
      rewrite rx_lines_uncaught. exact A. }
    destruct One as (l1 & O1 & O2 & O3 & O4). cbv zeta in *.
    destruct (run_callback_step w (Notify f)) as (_ & _ & L).
    destruct (IH (run_callback w (Notify f)) (proj1 (L Hst)))
      as (l2 & R1 & R2 & R3 & R4).
    exists (l1 ++ l2).
    rewrite R1, O1, R4, O4, last_status_app, frame_app, <- !app_assoc.
    split; [reflexivity|split; [|split; [|reflexivity]]].
    + rewrite R2, app_assoc, O2, <- app_assoc. reflexivity.
    + apply Forall_app; auto.
Qed.

(** X1.  Whatever arrives and whatever the Line Processor does with it
    (also when a line makes it raise), the dispatcher neither loses nor
    duplicates a byte outside the [CHECKING] phase: the lines it has
    extracted, each followed by CR LF, followed by what is left in [buf],
    are exactly the old buffer followed by the fragments; and no extracted
    line contains CR LF. *)
Theorem dispatcher_conserves_bytes frags w :
  state w <> CHECKING ->
  exists ls,
    rx_lines (out (deliver (map Notify frags) w)) = rx_lines (out w) ++ ls /\
    frame ls ++ buf (deliver (map Notify frags) w) = buf w ++ concat frags /\
    Forall (fun l => index_crlf l = None) ls.
Proof.
  intros Hst. destruct (deliver_account frags w Hst) as (ls & A & B & C & _).
  exists ls. auto.
Qed.

(** X2.  Outside the [CHECKING] phase the state after any notifications is
    the one named by the last status token among the lines extracted from
    them, and the old state if there is none; this holds also when a line
    makes the Line Processor raise. *)
Theorem state_follows_last_status_line frags w :
  state w <> CHECKING ->
  exists ls,
    rx_lines (out (deliver (map Notify frags) w)) = rx_lines (out w) ++ ls /\
    state (deliver (map Notify frags) w) = last_status ls (state w).
Proof.
  intros Hst. destruct (deliver_account frags w Hst) as (ls & A & _ & _ & D).
  exists ls. auto.
Qed.

(** Framing and extraction are inverse to each other. *)
Lemma index_crlf_frame l s :
  index_crlf l = None -> index_crlf (l ++ CRLF ++ s) = Some (length l).
Proof.
  induction l as [|a l IH]; intros H; [reflexivity|].
  cbn [index_crlf] in H. cbn [app index_crlf length].
  destruct (at_crlf (a :: l)) eqn:E; [discriminate|].
  destruct (index_crlf l) eqn:El; [discriminate|].
  rewrite (IH eq_refl).
  replace (at_crlf (a :: l ++ CRLF ++ s)) with false; [reflexivity|].
  symmetry. destruct l as [|b l]; [|exact E].
  cbn. now rewrite andb_false_r.
Qed.

Lemma spec_lines_frame ls rest :
  Forall (fun l => index_crlf l = None) ls ->
  index_crlf rest = None ->
  spec_lines (frame ls ++ rest) = ls /\ spec_rest (frame ls ++ rest) = rest.
Proof.
  intros Hls Hrest. induction Hls as [|l ls Hl Hls IH].
  - cbn. now rewrite spec_lines_none, spec_rest_none.
  - destruct IH as (IH1 & IH2).
    change (frame (l :: ls)) with ((l ++ CRLF) ++ frame ls).
    rewrite <- !app_assoc.
    pose proof (index_crlf_frame l (frame ls ++ rest) Hl) as Hi.
    rewrite (spec_lines_some _ _ Hi), (spec_rest_some _ _ Hi).
    rewrite firstn_app, firstn_all, Nat.sub_diag. cbn [firstn].
    rewrite app_nil_r.
    replace (skipn (length l + 2) (l ++ CRLF ++ frame ls ++ rest))
      with (frame ls ++ rest).
    + now rewrite IH1, IH2.
    + rewrite skipn_app, skipn_all2 by lia.
      replace (length l + 2 - length l) with 2 by lia. reflexivity.
Qed.

Lemma deliver_framed ls rest frags w :
  state w <> CHECKING ->
  buf w = [] ->
  Forall (fun l => index_crlf l = None) ls ->
  index_crlf rest = None ->
  concat frags = frame ls ++ rest ->
  fst (for_each ls handle_line w) = Returns tt ->
  deliver (map Notify frags) w = set_buf rest (snd (for_each ls handle_line w)).
Proof.
  intros Hst Hb Hls Hrest Hc Hok.
  destruct (spec_lines_frame ls rest Hls Hrest) as (E1 & E2).
  rewrite deliver_fragments; rewrite ?Hb; cbn [app]; rewrite ?Hc, ?E1, ?E2;
    auto.
Qed.

(** X3.  Framing and extraction are inverse to each other: when lines
    without CR LF inside are sent each followed by CR LF, followed by an
    unterminated rest, and the stream is delivered in any fragments to a
    receiver outside the [CHECKING] phase with an empty buffer, then (if
    the Line Processor raises on none of them) exactly these lines are
    extracted, in order, and exactly the rest stays in [buf]. *)
Theorem framed_lines_are_extracted ls rest frags w :
  state w <> CHECKING ->
  buf w = [] ->
  Forall (fun l => index_crlf l = None) ls ->
  index_crlf rest = None ->
  concat frags = frame ls ++ rest ->
  fst (for_each ls handle_line w) = Returns tt ->
  rx_lines (out (deliver (map Notify frags) w)) = rx_lines (out w) ++ ls /\
  buf (deliver (map Notify frags) w) = rest.
Proof.
  intros Hst Hb Hls Hrest Hc Hok.
  rewrite (deliver_framed ls rest frags w) by assumption.
  cbn [out buf set_buf]. now rewrite for_each_handle_rx.
Qed.

(** ** Where the lines go *)

Lemma stdout_of_app t1 t2 : stdout_of (t1 ++ t2) = stdout_of t1 ++ stdout_of t2.
Proof. apply flat_map_app. Qed.

Lemma file_events_app t1 t2 :
  file_events (t1 ++ t2) = file_events t1 ++ file_events t2.
Proof. apply filter_app. Qed.

Lemma stdout_of_emit e w :
  stdout_of (out (emit e w)) =
  stdout_of (out w) ++ match e with Stdout x => [x] | _ => [] end.
Proof. cbn [out emit]. rewrite stdout_of_app. cbn. now rewrite app_nil_r. Qed.

Lemma file_events_emit e w :
  file_events (out (emit e w)) =
  file_events (out w) ++ if is_file_event e then [e] else [].
Proof.
  cbn [out emit]. rewrite file_events_app. cbn.
  destruct (is_file_event e); reflexivity.
Qed.

(** Up to the call of the Line Processor a line changes neither the log
    file nor what has been printed or written. *)
Lemma handle_line_via line w :
  exists w0,
    handle_line line w = process_line line w0 /\
    log_file w0 = log_file w /\
    stdout_of (out w0) = stdout_of (out w) /\
    file_events (out w0) = file_events (out w).
Proof.
  unfold handle_line. unfold bind at 1. unfold log, modify.
  unfold bind. destruct (map_state line) as [s|].
  - rewrite update_state_returns. eexists. split; [reflexivity|].
    rewrite update_state_eq. cbn [snd state emit].
    destruct (hub_state_eqb s (state w)); cbn [log_file out set_state];
      rewrite ?stdout_of_emit, ?file_events_emit; cbn;
      rewrite ?app_nil_r; auto.
  - unfold ret. eexists. split; [reflexivity|].
    rewrite stdout_of_emit, file_events_emit. cbn. rewrite !app_nil_r. auto.
Qed.





(** ** The handshake when things go wrong *)

(** X6.  A wrong checksum is refused.  With the receiver and the schedule
    as for a successful send, but the reply byte different from the XOR of
    the payload, [send_message] raises [ValueError] ("Did not receive
    expected checksum."); the state is back to [IDLE] and the reply slot is
    empty, so a further message can be sent. *)
Theorem send_message_wrong_checksum P w pre q evs i c rest :
  length P <= 100 ->
  state w <> CHECKING ->
  reply w = None ->
  length pre = 2 * length (chunks 20 P) ->
  quiet q -> length q < 50 ->
  Forall is_notify evs ->
  Byte.to_N c <> xor_fold P ->
  sched w = pre ++ q ++ (evs ++ [Notify (i ++ [c])]) :: rest ->
  exists w',
    send_message P w =
    (Raises (ValueError "Did not receive expected checksum."), w') /\
    state w' = IDLE /\ reply w' = None /\ sched w' = rest.
Proof.
  intros Hlen Hst Hr Hpre Hq Hk Hn Hc Hs.
  destruct (write_runs P w) as (t1 & (_ & S1 & L1) & _).
  destruct (L1 Hst) as (Hst1 & Hr1).
  set (w1 := snd (write P w)) in *.
  rewrite Hs, <- Hpre, skipn_app, skipn_all, Nat.sub_diag in S1.
  cbn [skipn app] in S1.
  unfold send_message.
  destruct (Nat.ltb_spec 100 (length P)); [lia|].
  unfold bind at 1. rewrite write_returns. fold w1.
  unfold bind at 1. rewrite wait_for_checksum_eq, update_state_eq.
  rewrite (hub_state_eqb_false CHECKING (state w1)) by congruence.
  cbn [snd].
  replace 50 with (length q + S (49 - length q)) by lia.
  rewrite (poll_checksum_wait q _ _ ((evs ++ [Notify (i ++ [c])]) :: rest))
    by (assumption || (cbn; congruence)).
  match goal with
  | |- context [poll_checksum (S ?n) ?x] =>
      destruct (poll_checksum_reply n x evs i c rest)
        as (w' & -> & H1 & H2 & H3);
        [reflexivity|assumption|reflexivity|]
  end.
  unfold bind, log, modify.
  destruct (N.eqb_spec (xor_fold P) (Byte.to_N c)) as [E|E]; [congruence|].
  cbn [negb]. eexists. split; [reflexivity|]. cbn. auto.
Qed.

Lemma poll_checksum_line_mode n : forall w,
  state w <> CHECKING -> reply w = None ->
  exists w',
    poll_checksum n w =
    (Raises (TimeoutError "Hub did not return checksum"), w') /\
    state w' <> CHECKING /\ reply w' = None.
Proof.
  induction n as [|n IH]; intros w Hst Hr.
  - exists w. cbn. auto.
  - rewrite poll_checksum_S. cbv zeta.
    destruct (sleep_runs 10 w) as (t & (_ & _ & L) & _).
    destruct (L Hst) as (Hst1 & Hr1).
    rewrite Hr1, Hr. apply IH; congruence.
Qed.

(** X7.  A disconnect during the checksum wait.  When, after the payload
    is written and fewer than 50 polls in which nothing arrives, the
    disconnected callback runs before any reply has been stored, the
    handshake cannot complete any more: whatever arrives afterwards (the
    right checksum byte included) is treated as line data, and
    [send_message] raises [TimeoutError] after the remaining polls. *)
Theorem send_message_disconnected P w pre q evs rest :
  length P <= 100 ->
  state w <> CHECKING ->
  reply w = None ->
  length pre = 2 * length (chunks 20 P) ->
  quiet q -> length q < 50 ->
  sched w = pre ++ q ++ (Disconnect :: evs) :: rest ->
  exists w',
    send_message P w =
    (Raises (TimeoutError "Hub did not return checksum"), w') /\
    state w' <> CHECKING /\ reply w' = None.
Proof.
  intros Hlen Hst Hr Hpre Hq Hk Hs.
  destruct (write_runs P w) as (t1 & (_ & S1 & L1) & _).
  destruct (L1 Hst) as (Hst1 & Hr1).
  set (w1 := snd (write P w)) in *.
  rewrite Hs, <- Hpre, skipn_app, skipn_all, Nat.sub_diag in S1.
  cbn [skipn app] in S1.
  unfold send_message.
  destruct (Nat.ltb_spec 100 (length P)); [lia|].
  unfold bind at 1. rewrite write_returns. fold w1.
  unfold bind at 1. rewrite wait_for_checksum_eq, update_state_eq.
  rewrite (hub_state_eqb_false CHECKING (state w1)) by congruence.
  cbn [snd].
  replace 50 with (length q + S (49 - length q)) by lia.
  rewrite (poll_checksum_wait q _ _ ((Disconnect :: evs) :: rest))
    by (assumption || (cbn; congruence)).
  rewrite poll_checksum_S, sleep_eq.
  rewrite (suspend_cons _ (Disconnect :: evs) rest) by reflexivity.
  cbv zeta. cbn [snd]. unfold deliver. cbn [fold_left].
  match goal with
  | |- context [fold_left run_callback evs ?x] =>
      fold (deliver evs x);
      assert (Hx : state x <> CHECKING /\ reply x = None);
      [|destruct (deliver_step evs x) as (_ & _ & L);
        destruct (L (proj1 Hx)) as (Hst2 & Hr2);
        rewrite (proj2 Hx) in Hr2; rewrite Hr2;
        destruct (poll_checksum_line_mode (49 - length q) (deliver evs x)
                    Hst2 Hr2) as (w' & -> & Hst3 & Hr3);
        exists w'; auto]
  end.
  unfold run_callback. cbn [callback].
  unfold update_state_disconnected, bind. rewrite update_state_eq.
  cbn. split; [discriminate|reflexivity].
Qed.

(** ** More on [wait_until_not_running] *)

Lemma poll_not_running_no_raise fuel : forall w e,
  fst (poll_not_running fuel w) <> Raises e.
Proof.
  induction fuel as [|fuel IH]; intros w e; [discriminate|].
  cbn [poll_not_running]. unfold bind at 1. rewrite sleep_returns.
  unfold bind, gets.
  destruct (hub_state_eqb (state (snd (sleep 100 w))) RUNNING);
    [apply IH|discriminate].
Qed.

Lemma sleep_quiet ms w :
  quiet (sched w) ->
  sleep ms w = (Returns tt, set_sched (tl (sched w)) (emit (Sleep ms) w)).
Proof. intros H. rewrite sleep_eq. now apply (suspend_quiet (emit (Sleep ms) w)). Qed.

Lemma poll_not_running_stuck fuel : forall w,
  quiet (sched w) -> state w = RUNNING ->
  fst (poll_not_running fuel w) = Hangs.
Proof.
  induction fuel as [|fuel IH]; intros w Hq Hs; [reflexivity|].
  cbn [poll_not_running]. unfold bind at 1. rewrite sleep_quiet by exact Hq.
  unfold bind, gets. cbn [state set_sched emit]. rewrite Hs. cbn.
  apply IH; [cbn; now apply quiet_tl|exact Hs].
Qed.

(** X8.  [wait_until_not_running] never raises, whatever arrives while
    it sleeps: an exception of a callback stays in the event loop.
    Whenever it returns, the state is not [RUNNING]. *)
Theorem wait_until_not_running_outcomes w :
  (forall e, fst (wait_until_not_running w) <> Raises e) /\
  (forall w', wait_until_not_running w = (Returns tt, w') ->
              state w' <> RUNNING).
Proof.
  split.
  - intros e. unfold wait_until_not_running, bind. rewrite sleep_returns.
    apply poll_not_running_no_raise.
  - apply wait_until_not_running_returns.
Qed.

(** X9.  When nothing arrives, [wait_until_not_running] looks at the state
    only: if it is not [RUNNING] the call returns after one sleep of
    500 ms and one of 100 ms, changing nothing else (it does not wait for
    the program to start); if it is [RUNNING] the call never returns. *)
Theorem wait_until_not_running_without_news w :
  quiet (sched w) ->
  (state w <> RUNNING ->
   wait_until_not_running w =
   (Returns tt,
    mkHub (buf w) (state w) (reply w) (log_file w) (skipn 2 (sched w))
          (out w ++ [Sleep 500; Sleep 100]))) /\
  (state w = RUNNING -> fst (wait_until_not_running w) = Hangs).
Proof.
  intros Hq. split; intros Hs.
  - unfold wait_until_not_running, bind at 1.
    rewrite sleep_quiet by exact Hq. cbn [poll_not_running].
    unfold bind at 1. rewrite sleep_quiet by (cbn; now apply quiet_tl).
    unfold bind, gets. cbn [state set_sched emit].
    rewrite (hub_state_eqb_false _ _ Hs). unfold ret.
    cbn [buf state reply log_file sched out set_sched emit].
    rewrite !skipn_S_tl. unfold set_sched, emit.
    cbn [buf state reply log_file sched out skipn].
    now rewrite <- app_assoc.
  - unfold wait_until_not_running, bind.
    rewrite sleep_quiet by exact Hq.
    apply poll_not_running_stuck; [cbn; now apply quiet_tl|exact Hs].
Qed.

(** ** More on chunks and checksums *)

(** X10.  Splitting into chunks of [n > 0] bytes, as [write] does with 20
    and [download_and_run] with 100, and joining the chunks again gives
    the data back; there are ceil(len/n) chunks, none is empty or longer
    than [n], and all but the last have exactly [n] bytes. *)
Theorem chunks_round_trip n (data : bytes) :
  0 < n ->
  concat (chunks n data) = data /\
  length (chunks n data) = (length data + n - 1) / n /\
  Forall (fun c => 0 < length c <= n) (chunks n data) /\
  Forall (fun c => length c = n) (removelast (chunks n data)).
Proof.
  intros Hn. split; [now apply chunks_concat|].
  split; [unfold chunks; now rewrite length_map, length_seq|].
  split; [now apply chunks_bounds|now apply chunks_full].
Qed.

Lemma xor_fold_from data : forall c,
  fold_left (fun checksum b => N.lxor checksum (Byte.to_N b)) data c =
  N.lxor c (xor_fold data).
Proof.
  unfold xor_fold.
  induction data as [|b data IH]; intros c; cbn [fold_left].
  - now rewrite N.lxor_0_r.
  - rewrite (IH (N.lxor c (Byte.to_N b))), (IH (N.lxor 0 (Byte.to_N b))).
    rewrite N.lxor_0_l, N.lxor_assoc. reflexivity.
Qed.

Lemma xor_fold_app a b :
  xor_fold (a ++ b) = N.lxor (xor_fold a) (xor_fold b).
Proof.
  unfold xor_fold at 1. rewrite fold_left_app.
  fold (xor_fold a). apply xor_fold_from.
Qed.

Lemma lxor_below_256 a b : (a < 256 -> b < 256 -> N.lxor a b < 256)%N.
Proof.
  intros Ha Hb.
  destruct (N.eq_dec (N.lxor a b) 0) as [E|E]; [rewrite E; lia|].
  change 256%N with (2 ^ 8)%N in *.
  apply N.log2_lt_pow2; [lia|].
  pose proof (N.log2_lxor a b) as H.
  assert (La : (N.log2 a < 8)%N).
  { destruct (N.eq_dec a 0) as [->|]; [reflexivity|].
    apply N.log2_lt_pow2; lia. }
  assert (Lb : (N.log2 b < 8)%N).
  { destruct (N.eq_dec b 0) as [->|]; [reflexivity|].
    apply N.log2_lt_pow2; lia. }
  lia.
Qed.

Lemma lxor_cancel_l a b c : N.lxor a b = N.lxor a c -> b = c.
Proof.
  intros H. apply (f_equal (N.lxor a)) in H.
  now rewrite <- !N.lxor_assoc, !N.lxor_nilpotent, !N.lxor_0_l in H.
Qed.

Lemma to_N_inj x y : Byte.to_N x = Byte.to_N y -> x = y.
Proof.
  intros H. apply (f_equal Byte.of_N) in H.
  rewrite !Byte.of_to_N in H. congruence.
Qed.

(** X11.  The checksum of [send_message].  It is the XOR of the checksums
    of the parts of the payload, it always fits one byte (so the one reply
    byte of the hub can equal it), and it changes whenever a single byte
    of the payload changes; it does not depend on the order of the
    parts. *)
Theorem xor_fold_properties :
  (forall a b, xor_fold (a ++ b) = N.lxor (xor_fold a) (xor_fold b)) /\
  (forall data, (xor_fold data < 256)%N) /\
  (forall a x y b, x <> y -> xor_fold (a ++ x :: b) <> xor_fold (a ++ y :: b)) /\
  (forall a b, xor_fold (a ++ b) = xor_fold (b ++ a)).
Proof.
  split; [exact xor_fold_app|]. split; [|split].
  - induction data as [|b data IH]; [reflexivity|].
    change (b :: data) with ([b] ++ data). rewrite xor_fold_app.
    apply lxor_below_256; [|exact IH].
    cbn. pose proof (Byte.to_N_bounded b). lia.
  - intros a x y b Hxy H.
    change (x :: b) with ([x] ++ b) in H. change (y :: b) with ([y] ++ b) in H.
    rewrite !xor_fold_app in H. apply lxor_cancel_l in H.
    rewrite (N.lxor_comm (xor_fold [x])), (N.lxor_comm (xor_fold [y])) in H.
    apply lxor_cancel_l in H. cbn in H. apply Hxy. now apply to_N_inj.
  - intros a b. rewrite !xor_fold_app. apply N.lxor_comm.
Qed.

(** ** The bytes that reach the hub *)







(** ** The receiver of [ble.py] *)

Lemma ble_update_state_valid line r :
  Ble.valid r -> Ble.valid (Ble.update_state line r).
Proof.
  intros H. unfold Ble.update_state, Ble.is_status.
  destruct (bytes_eqb line Ble.IDLE) eqn:E1; cbn [orb].
  { destruct (Ble.differs line (Ble.state r)); [|exact H].
    apply bytes_eqb_eq in E1. subst. right. left. reflexivity. }
  destruct (bytes_eqb line Ble.RUNNING) eqn:E2; cbn [orb].
  { destruct (Ble.differs line (Ble.state r)); [|exact H].
    apply bytes_eqb_eq in E2. subst. right. right. left. reflexivity. }
  destruct (bytes_eqb line Ble.ERROR) eqn:E3; [|exact H].
  destruct (Ble.differs line (Ble.state r)); [|exact H].
  apply bytes_eqb_eq in E3. subst. right. right. right. reflexivity.
Qed.

Lemma ble_update_state_frame line r :
  Ble.buf (Ble.update_state line r) = Ble.buf r /\
  Ble.printed (Ble.out (Ble.update_state line r)) = Ble.printed (Ble.out r) /\
  Ble.new_data (Ble.out (Ble.update_state line r))
  = Ble.new_data (Ble.out r).
Proof.
  unfold Ble.update_state.
  destruct (Ble.is_status line); [|auto].
  destruct (Ble.differs line (Ble.state r)); [|auto].
  cbn [Ble.buf Ble.out]. unfold Ble.printed, Ble.new_data.
  rewrite !flat_map_app. cbn. rewrite !app_nil_r. auto.
Qed.

Lemma ble_extract_lines_account fuel : forall r,
  length (Ble.buf r) <= fuel ->
  Ble.valid r ->
  exists r' ls,
    Ble.extract_lines fuel r = Some r' /\
    Ble.valid r' /\
    Ble.new_data (Ble.out r') = Ble.new_data (Ble.out r) ++ ls /\
    frame ls ++ Ble.buf r' = Ble.buf r /\
    Forall (fun l => index_crlf l = None) ls.
Proof.
  induction fuel as [|fuel IH]; intros r Hf Hv; cbn [Ble.extract_lines];
    destruct (index_crlf (Ble.buf r)) as [i|] eqn:E;
    try (exists r, []; cbn; rewrite app_nil_r; now auto).
  - apply index_crlf_bound in E. lia.
  - destruct (index_crlf_split _ _ E) as (Hb & Hn).
    pose proof (index_crlf_bound _ _ E) as Hi.
    cbv zeta.
    set (line := firstn i (Ble.buf r)) in *.
    set (rest := skipn (i + 2) (Ble.buf r)) in *.
    set (r1 := Ble.mk rest (Ble.state r) (Ble.out r ++ [Ble.NewData line])).
    assert (Hv1 : Ble.valid r1) by exact Hv.
    pose proof (ble_update_state_valid line r1 Hv1) as Hv2.
    destruct (ble_update_state_frame line r1) as (B2 & _ & N2).
    set (r2 := Ble.update_state line r1) in *.
    assert (N1 : Ble.new_data (Ble.out r2)
                 = Ble.new_data (Ble.out r) ++ [line]).
    { rewrite N2. subst r1. cbn [Ble.out]. unfold Ble.new_data.
      now rewrite flat_map_app. }
    assert (F1 : frame [line] ++ rest = Ble.buf r).
    { unfold frame. cbn [flat_map]. rewrite app_nil_r, <- app_assoc.
      symmetry. exact Hb. }
    destruct (decode line) as [t|].
    + destruct (IH (Ble.mk (Ble.buf r2) (Ble.state r2)
                           (Ble.out r2 ++ [Ble.Print (t ++ [10%N])])))
        as (r' & ls & E' & V' & N' & F' & L').
      * cbn [Ble.buf]. rewrite B2. subst r1 rest. cbn [Ble.buf].
        rewrite length_skipn. lia.
      * exact Hv2.
      * exists r', (line :: ls). split; [exact E'|]. split; [exact V'|].
        cbn [Ble.buf Ble.out] in *. split; [|split].
        -- rewrite N'. unfold Ble.new_data at 1. rewrite flat_map_app.
           fold (Ble.new_data (Ble.out r2)). rewrite N1. cbn.
           rewrite app_nil_r, <- app_assoc. reflexivity.
        -- change (line :: ls) with ([line] ++ ls).
           rewrite frame_app, <- app_assoc, F', B2. exact F1.
        -- constructor; assumption.
    + exists r2, [line]. split; [reflexivity|]. split; [exact Hv2|].
      split; [exact N1|]. split; [rewrite B2; exact F1|].
      constructor; [exact Hn|constructor].
Qed.

(** X13.  The receiver of [ble.py].  [update_data_buffer] always comes to
    its end, and it keeps the status UNKNOWN or one of the three tokens
    (so does a disconnect).  It neither loses nor duplicates a byte: the
    lines it has extracted, each followed by CR LF, followed by the new
    buffer, are the old buffer followed by the data. *)
Theorem ble_update_data_buffer_sound data r :
  Ble.valid r ->
  Ble.valid (Ble.update_state_disconnected r) /\
  exists r' ls,
    Ble.update_data_buffer data r = Some r' /\
    Ble.valid r' /\
    Ble.new_data (Ble.out r') = Ble.new_data (Ble.out r) ++ ls /\
    frame ls ++ Ble.buf r' = Ble.buf r ++ data /\
    Forall (fun l => index_crlf l = None) ls.
Proof.
  intros Hv. split; [left; reflexivity|].
  unfold Ble.update_data_buffer.
  apply (ble_extract_lines_account _
           (Ble.mk (Ble.buf r ++ data) (Ble.state r) (Ble.out r)));
    [reflexivity|exact Hv].
Qed.

(** The two status parsers recognise the same lines. *)
Lemma status_link line :
  match map_state line with
  | Some s => Ble.is_status line = true /\ token_of s = Some line /\
              s <> CHECKING
  | None => Ble.is_status line = false
  end.
Proof.
  unfold map_state, Ble.is_status, Ble.IDLE, Ble.RUNNING, Ble.ERROR.
  destruct (bytes_eqb line (bytes_of ">>>> IDLE")) eqn:E1.
  { apply bytes_eqb_eq in E1. subst. repeat split. discriminate. }
  destruct (bytes_eqb line (bytes_of ">>>> RUNNING")) eqn:E2.
  { apply bytes_eqb_eq in E2. subst. repeat split. discriminate. }
  destruct (bytes_eqb line (bytes_of ">>>> ERROR")) eqn:E3.
  { apply bytes_eqb_eq in E3. subst. repeat split. discriminate. }
  reflexivity.
Qed.

Lemma bytes_eqb_refl a : bytes_eqb a a = true.
Proof.
  induction a as [|x a IH]; [reflexivity|].
  cbn. now rewrite Byte.byte_dec_lb, IH.
Qed.

Lemma ble_update_state_link line s r :
  s <> CHECKING ->
  Ble.state r = token_of s ->
  Ble.state (Ble.update_state line r) =
  token_of (match map_state line with Some s' => s' | None => s end).
Proof.
  intros Hs Hr. unfold Ble.update_state.
  pose proof (status_link line) as L.
  destruct (map_state line) as [s'|].
  - destruct L as (-> & T & _).
    destruct (Ble.differs line (Ble.state r)) eqn:D.
    + cbn. now rewrite T.
    + rewrite T. unfold Ble.differs in D.
      destruct (Ble.state r) as [x|]; [|discriminate].
      apply negb_false_iff, bytes_eqb_eq in D. now subst.
  - now rewrite L.
Qed.

Lemma sim_extract_lines fuel : forall w r,
  agree w r ->
  length (buf w) <= fuel ->
  Forall unmarked (spec_lines (buf w)) ->
  exists r' ps,
    Ble.extract_lines fuel r = Some r' /\
    fst (extract_lines fuel w) = Returns tt /\
    agree (snd (extract_lines fuel w)) r' /\
    stdout_of (out (snd (extract_lines fuel w))) = stdout_of (out w) ++ ps /\
    Ble.printed (Ble.out r') = Ble.printed (Ble.out r) ++ ps.
Proof.
  induction fuel as [|fuel IH]; intros w r (Ab & As & At & Al) Hf Hu;
    cbn [extract_lines Ble.extract_lines]; rewrite <- Ab;
    destruct (index_crlf (buf w)) as [i|] eqn:E;
    try (exists r, []; rewrite !app_nil_r; cbn; unfold agree; now auto).
  - apply index_crlf_bound in E. lia.
  - pose proof (index_crlf_bound _ _ E) as Hi.
    rewrite (spec_lines_some _ _ E) in Hu.
    inversion Hu as [|l ls Hline Hrest]; subst. clear Hu.
    cbv zeta. rewrite take_line_eq.
    set (line := firstn i (buf w)) in *.
    set (rest := skipn (i + 2) (buf w)) in *.
    set (r1 := Ble.mk rest (Ble.state r) (Ble.out r ++ [Ble.NewData line])).
    destruct (ble_update_state_frame line r1) as (B2 & P2 & _).
    pose proof (ble_update_state_link line (state w) r1 As At) as S2.
    set (r2 := Ble.update_state line r1) in *.
    assert (P1 : Ble.printed (Ble.out r2) = Ble.printed (Ble.out r)).
    { rewrite P2. subst r1. cbn [Ble.out]. unfold Ble.printed.
      rewrite flat_map_app. cbn. now rewrite app_nil_r. }
    destruct (handle_line_via line w) as (w0 & Hh & L0 & S0 & _).
    destruct (handle_line_frame line w) as (Hbuf & Hst). cbv zeta in *.
    assert (Hs' : match map_state line with
                  | Some s => s | None => state w end <> CHECKING).
    { pose proof (status_link line) as L.
      destruct (map_state line); [tauto|exact As]. }
    rewrite Hh in *.
    destruct (decode line) as [t|] eqn:D.
    + destruct (Hline t D) as (Ho & Hc).
      rewrite (process_line_plain line t w0) in * by congruence.
      cbn [fst snd] in *.
      set (wa := set_buf rest (emit (Stdout (t ++ newline)) w0)).
      destruct (IH wa (Ble.mk (Ble.buf r2) (Ble.state r2)
                              (Ble.out r2 ++ [Ble.Print (t ++ [10%N])])))
        as (r' & ps & E1 & E2 & E3 & E4 & E5).
      * unfold agree. subst wa. cbn [buf state log_file set_buf emit Ble.buf
                                     Ble.state].
        cbn [state emit] in Hst. rewrite Hst, B2, S2. subst r1. cbn.
        repeat split; auto; congruence.
      * subst wa rest. cbn [buf set_buf]. rewrite length_skipn. lia.
      * exact Hrest.
      * exists r', ((t ++ newline) :: ps).
        split; [exact E1|]. split; [exact E2|]. split; [exact E3|].
        split.
        -- rewrite E4. subst wa. cbn [out set_buf].
           rewrite stdout_of_emit, S0, <- app_assoc. reflexivity.
        -- rewrite E5. cbn [Ble.out]. unfold Ble.printed at 1.
           rewrite flat_map_app. fold (Ble.printed (Ble.out r2)).
           rewrite P1. cbn. rewrite <- app_assoc. reflexivity.
    + assert (Hp : process_line line w0 = (Raises UnicodeDecodeError, w0)).
      { unfold process_line. now rewrite D. }
      rewrite Hp in *. cbn [fst snd is_ValueError] in *.
      exists r2, []. rewrite !app_nil_r.
      split; [reflexivity|]. split; [reflexivity|]. split; [|auto].
      unfold agree. cbn [buf state log_file set_buf].
      rewrite Hst, B2, S2. subst r1. cbn. repeat split; auto; congruence.
Qed.

(** X14.  The two receivers agree.  Take a receiver of [run.py] outside
    the [CHECKING] phase with no log file open and a receiver of [ble.py]
    with the same buffer and the same status.  On any data whose lines
    carry no log marker both extract the same lines, print the same texts
    in the same order and end again with the same buffer and the same
    status; [run.py] raises nothing.  A disconnect also keeps them in
    agreement. *)
Theorem receivers_agree data w r :
  agree w r ->
  Forall unmarked (spec_lines (buf w ++ data)) ->
  agree (snd (update_state_disconnected w)) (Ble.update_state_disconnected r)
  /\
  exists r' ps,
    Ble.update_data_buffer data r = Some r' /\
    fst (update_data_buffer data w) = Returns tt /\
    agree (snd (update_data_buffer data w)) r' /\
    stdout_of (out (snd (update_data_buffer data w))) = stdout_of (out w) ++ ps /\
    Ble.printed (Ble.out r') = Ble.printed (Ble.out r) ++ ps.
Proof.
  intros A Hu. split.
  - destruct A as (Ab & As & At & Al).
    unfold update_state_disconnected, bind. rewrite update_state_eq.
    unfold log, modify. cbn [snd]. unfold agree, Ble.update_state_disconnected.
    destruct (hub_state_eqb UNKNOWN (state w)) eqn:E.
    + destruct (hub_state_eqb_spec UNKNOWN (state w)); [|discriminate].
      cbn. rewrite <- e. repeat split; auto. discriminate.
    + cbn. repeat split; auto. discriminate.
  - assert (U : update_data_buffer data w =
                extract_lines (length (buf w ++ data))
                              (set_buf (buf w ++ data) w)).
    { unfold update_data_buffer. step.
      now rewrite (hub_state_eqb_false _ _ (proj1 (proj2 A))). }
    rewrite U. unfold Ble.update_data_buffer.
    destruct A as (Ab & As & At & Al). rewrite <- Ab.
    destruct (sim_extract_lines (length (buf w ++ data))
                (set_buf (buf w ++ data) w)
                (Ble.mk (buf w ++ data) (Ble.state r) (Ble.out r)))
      as (r' & ps & E1 & E2 & E3 & E4 & E5);
      [unfold agree; cbn; auto|reflexivity|exact Hu|].
    exists r', ps. auto.
Qed.

End Program.

(** ** Concrete runs *)


Lemma lines_independent_of_fragments_witness :
  let frags := [bytes_of "ab"; bytes_of "c" ++ CRLF ++ bytes_of "def" ++ CRLF] in
  let w' := deliver fs_ok (map Notify frags) (init []) in
  rx_lines (out w') = [bytes_of "abc"; bytes_of "def"] /\ buf w' = [].
Proof.
  destruct (proj1 (lines_independent_of_fragments fs_ok)
              [bytes_of "ab"; bytes_of "c" ++ CRLF ++ bytes_of "def" ++ CRLF]
              (init []))
    as (H1 & H2 & _).
  - simpl. discriminate.
  - reflexivity.
  - reflexivity.
  - split; [exact H1|exact H2].
Defined.

Lemma checksum_timeout_after_50_polls_witness :
  send_message fs_ok [x01] (init []) =
  (Raises (TimeoutError "Hub did not return checksum"),
   mkHub [] CHECKING None None []
         ([TX [x01]; Sleep 50; GattWrite [x01]; NewState CHECKING]
          ++ repeat (Sleep 10) 50)).
Proof.
  apply (checksum_timeout_after_50_polls fs_ok [x01] (init [])).
  - simpl. lia.
  - constructor.
  - reflexivity.
  - simpl. discriminate.
Defined.

Lemma send_message_writes_before_checking_witness :
  exists t1 t2,
    out (snd (send_message fs_ok [x01] (init []))) =
    [] ++ t1 ++ NewState CHECKING :: t2 /\
    outbound t1 = [Sleep 50; GattWrite [x01]] /\
    existsb sets_checking t1 = false /\
    gatt_writes t2 = [].
Proof.
  destruct (send_message_writes_before_checking fs_ok [x01] (init []))
    as (t1 & t2 & H1 & H2 & H3 & _ & H4 & _).
  - simpl. lia.
  - simpl. discriminate.
  - exists t1, t2. repeat split; assumption.
Defined.

Lemma send_message_too_large_witness :
  send_message fs_ok (repeat x00 101) (init []) =
  (Raises (ValueError "Cannot send this much data at once"), init []).
Proof.
  apply (send_message_too_large fs_ok (repeat x00 101) (init [])).
  simpl. lia.
Defined.

Lemma download_and_run_protocol_witness :
  (exists prefix w1,
    to_bytes4 3 = Some prefix /\
    from_bytes_le prefix = 3%N /\
    download_and_run fs_ok (bytes_of "abc")
      (init [[]; []; [Notify [x03]]; []; []; [Notify [x60]]]) =
    wait_until_not_running fs_ok w1 /\
    state w1 = IDLE /\
    uplink (out w1) =
    [GattWrite prefix; Expected 3 (Some 3%N); Sending 1 1;
     GattWrite (bytes_of "abc"); Expected 96 (Some 96%N)]) /\
  download_and_run fs_ok (repeat x01 (2 ^ 32)) (init [[Notify [x00]]]) =
  (Raises OverflowError, init [[Notify [x00]]]).
Proof.
  split;
    [|apply (proj1 (download_and_run_protocol fs_ok (repeat x01 (2 ^ 32))));
      rewrite repeat_length, Nat2N.inj_pow; apply N.le_refl].
  destruct (proj2 (download_and_run_protocol fs_ok (bytes_of "abc")))
    as (prefix & H1 & _ & H3 & _ & _ & _ & _ & H8 & _).
  - vm_compute. reflexivity.
  - destruct (H8 (init [[]; []; [Notify [x03]]; []; []; [Notify [x60]]]) [])
      as (w1 & E & _ & E2 & _ & E4).
    + simpl. discriminate.
    + reflexivity.
    + simpl in H1. inversion H1; subst prefix.
      apply (acks_cons _ _ [[]; []] [] [] [] x03
                       [[]; []; [Notify [x60]]] []);
        try reflexivity; try constructor; [simpl; lia|].
      apply (acks_cons _ _ [[]; []] [] [] [] x60 [] []);
        try reflexivity; try constructor. simpl; lia.
    + exists prefix, w1. repeat split; try assumption.
      rewrite E4. simpl in H1. inversion H1; subst prefix. reflexivity.
Defined.

Lemma state_change_recorded_once_witness :
  let line := bytes_of ">>>> IDLE" ++ CRLF in
  let w2 := deliver fs_ok [Notify line; Notify line] (init []) in
  state w2 = IDLE /\ state_changes (out w2) = 1.
Proof.
  apply (proj1 (proj2 (proj2 (state_change_recorded_once fs_ok)))
           (init []) (bytes_of ">>>> IDLE") IDLE).
  - reflexivity.
  - simpl. discriminate.
  - reflexivity.
Defined.

Lemma checksum_reply_is_last_byte_witness :
  update_data_buffer fs_ok [x01; x02] (mkHub [x41] CHECKING None None [] []) =
  (Returns tt, mkHub [x41] CHECKING (Some 2%N) None [] [CS 2]).
Proof.
  apply (proj1 (checksum_reply_is_last_byte fs_ok)
           (mkHub [x41] CHECKING None None [] []) [x01] x02).
  reflexivity.
Defined.

Lemma log_file_lifecycle_witness :
  let run :=
    for_each [bytes_of "PB_OF out.txt"; bytes_of "1,2"; bytes_of "3,4";
              bytes_of "PB_EOF"]
             (process_line fs_ok) (init []) in
  fst run = Returns tt /\
  log_file (snd run) = None /\
  out (snd run) =
  [Saving (text_of "out.txt"); FileOpen (text_of "out.txt");
   FileWrite (text_of "out.txt") (text_of "1,2" ++ newline);
   Data (text_of "1,2");
   FileWrite (text_of "out.txt") (text_of "3,4" ++ newline);
   Data (text_of "3,4");
   DoneSaving; FileClose (text_of "out.txt")].
Proof.
  apply (proj2 (log_file_lifecycle fs_ok)
           (bytes_of "1,2") (bytes_of "3,4") (text_of "1,2") (text_of "3,4")
           (init [])).
  - reflexivity.
  - split; reflexivity.
  - reflexivity.
  - split; reflexivity.
  - reflexivity.
  - reflexivity.
Defined.

Lemma send_message_reply_never_none_witness :
  let w := init [[Notify [x07]]] in
  fst (wait_for_checksum fs_ok w) = Returns (Some 7%N) /\
  Some 7%N <> None.
Proof.
  split; [reflexivity|].
  apply (proj1 (send_message_reply_never_none fs_ok)
           (init [[Notify [x07]]]) (Some 7%N)
           (snd (wait_for_checksum fs_ok (init [[Notify [x07]]])))).
  reflexivity.
Defined.

(** ** Concrete runs of the further properties *)

Lemma dispatcher_conserves_bytes_witness :
  let frags := [[xff] ++ CRLF ++ bytes_of "abc" ++ CRLF; bytes_of "de"] in
  exists ls,
    rx_lines (out (deliver fs_ok (map Notify frags) (init []))) =
    rx_lines (out (init [])) ++ ls /\
    frame ls ++ buf (deliver fs_ok (map Notify frags) (init [])) =
    buf (init []) ++ concat frags /\
    Forall (fun l => index_crlf l = None) ls.
Proof.
  apply (dispatcher_conserves_bytes fs_ok
           [[xff] ++ CRLF ++ bytes_of "abc" ++ CRLF; bytes_of "de"] (init [])).
  simpl. discriminate.
Defined.

Lemma state_follows_last_status_line_witness :
  let frags := [bytes_of ">>>> RUNNING" ++ CRLF ++ bytes_of "hi" ++ CRLF;
                bytes_of ">>>> IDLE" ++ CRLF ++ bytes_of ">>>> ERR"] in
  exists ls,
    rx_lines (out (deliver fs_ok (map Notify frags) (init []))) =
    rx_lines (out (init [])) ++ ls /\
    state (deliver fs_ok (map Notify frags) (init [])) =
    last_status ls (state (init [])).
Proof.
  apply (state_follows_last_status_line fs_ok
           [bytes_of ">>>> RUNNING" ++ CRLF ++ bytes_of "hi" ++ CRLF;
            bytes_of ">>>> IDLE" ++ CRLF ++ bytes_of ">>>> ERR"] (init [])).
  simpl. discriminate.
Defined.

Lemma framed_lines_are_extracted_witness :
  let frags := [bytes_of "ab"; bytes_of "c" ++ CRLF ++ bytes_of "de";
                bytes_of "f" ++ CRLF ++ bytes_of "gh"] in
  rx_lines (out (deliver fs_ok (map Notify frags) (init []))) =
  rx_lines (out (init [])) ++ [bytes_of "abc"; bytes_of "def"] /\
  buf (deliver fs_ok (map Notify frags) (init [])) = bytes_of "gh".
Proof.
  apply (framed_lines_are_extracted fs_ok
           [bytes_of "abc"; bytes_of "def"] (bytes_of "gh")
           [bytes_of "ab"; bytes_of "c" ++ CRLF ++ bytes_of "de";
            bytes_of "f" ++ CRLF ++ bytes_of "gh"] (init [])).
  - simpl. discriminate.
  - reflexivity.
  - repeat constructor.
  - reflexivity.
  - reflexivity.
  - reflexivity.
Defined.



Lemma send_message_wrong_checksum_witness :
  exists w',
    send_message fs_ok [x01; x03] (init [[]; []; [Notify [x05]]]) =
    (Raises (ValueError "Did not receive expected checksum."), w') /\
    state w' = IDLE /\ reply w' = None /\ sched w' = [].
Proof.
  apply (send_message_wrong_checksum fs_ok [x01; x03]
           (init [[]; []; [Notify [x05]]]) [[]; []] [] [] [] x05 []).
  - simpl. lia.
  - simpl. discriminate.
  - reflexivity.
  - reflexivity.
  - constructor.
  - simpl. lia.
  - constructor.
  - vm_compute. discriminate.
  - reflexivity.
Defined.

Lemma send_message_disconnected_witness :
  exists w',
    send_message fs_ok [x01; x03]
      (init [[]; []; []; [Disconnect; Notify [x02]]; [Notify [x02]]]) =
    (Raises (TimeoutError "Hub did not return checksum"), w') /\
    state w' <> CHECKING /\ reply w' = None.
Proof.
  apply (send_message_disconnected fs_ok [x01; x03]
           (init [[]; []; []; [Disconnect; Notify [x02]]; [Notify [x02]]])
           [[]; []] [[]] [Notify [x02]] [[Notify [x02]]]).
  - simpl. lia.
  - simpl. discriminate.
  - reflexivity.
  - reflexivity.
  - repeat constructor.
  - simpl. lia.
  - reflexivity.
Defined.

Lemma wait_until_not_running_outcomes_witness :
  let w := init [[Notify (bytes_of ">>>> RUNNING" ++ CRLF)]; [];
                 [Notify (bytes_of ">>>> IDLE" ++ CRLF)]] in
  fst (wait_until_not_running fs_ok w) = Returns tt /\
  state (snd (wait_until_not_running fs_ok w)) <> RUNNING.
Proof.
  split; [reflexivity|].
  apply (proj2 (wait_until_not_running_outcomes fs_ok
           (init [[Notify (bytes_of ">>>> RUNNING" ++ CRLF)]; [];
                  [Notify (bytes_of ">>>> IDLE" ++ CRLF)]]))).
  reflexivity.
Defined.

Lemma wait_until_not_running_without_news_witness :
  wait_until_not_running fs_ok (init []) =
  (Returns tt, mkHub [] UNKNOWN None None [] [Sleep 500; Sleep 100]) /\
  fst (wait_until_not_running fs_ok (mkHub [] RUNNING None None [[]; []] []))
  = Hangs.
Proof.
  split.
  - apply (proj1 (wait_until_not_running_without_news fs_ok (init [])
                    (Forall_nil _))).
    simpl. discriminate.
  - apply (proj2 (wait_until_not_running_without_news fs_ok
                    (mkHub [] RUNNING None None [[]; []] [])
                    (Forall_cons _ eq_refl (Forall_cons _ eq_refl
                                                        (Forall_nil _))))).
    reflexivity.
Defined.

Lemma chunks_round_trip_witness :
  let data := repeat x07 45 in
  concat (chunks 20 data) = data /\
  length (chunks 20 data) = (length data + 20 - 1) / 20 /\
  Forall (fun c => 0 < length c <= 20) (chunks 20 data) /\
  Forall (fun c => length c = 20) (removelast (chunks 20 data)).
Proof.
  apply (chunks_round_trip 20 (repeat x07 45)). lia.
Defined.

Lemma xor_fold_properties_witness :
  xor_fold ([x10] ++ x01 :: [x20]) <> xor_fold ([x10] ++ x02 :: [x20]).
Proof.
  apply (proj1 (proj2 (proj2 xor_fold_properties)) [x10] x01 x02 [x20]).
  discriminate.
Defined.


Lemma ble_update_data_buffer_sound_witness :
  let data := bytes_of ">>>> IDLE" ++ CRLF ++ bytes_of "x" in
  Ble.valid (Ble.update_state_disconnected Ble.init) /\
  exists r' ls,
    Ble.update_data_buffer data Ble.init = Some r' /\
    Ble.valid r' /\
    Ble.new_data (Ble.out r') = Ble.new_data (Ble.out Ble.init) ++ ls /\
    frame ls ++ Ble.buf r' = Ble.buf Ble.init ++ data /\
    Forall (fun l => index_crlf l = None) ls.
Proof.
  apply (ble_update_data_buffer_sound
           (bytes_of ">>>> IDLE" ++ CRLF ++ bytes_of "x") Ble.init).
  left. reflexivity.
Defined.

Lemma receivers_agree_witness :
  let data := bytes_of "abc" ++ CRLF ++ bytes_of ">>>> IDLE" ++ CRLF
              ++ bytes_of "xy" in
  agree (snd (update_state_disconnected (init [])))
        (Ble.update_state_disconnected Ble.init) /\
  exists r' ps,
    Ble.update_data_buffer data Ble.init = Some r' /\
    fst (update_data_buffer fs_ok data (init [])) = Returns tt /\
    agree (snd (update_data_buffer fs_ok data (init []))) r' /\
    stdout_of (out (snd (update_data_buffer fs_ok data (init [])))) =
    stdout_of (out (init [])) ++ ps /\
    Ble.printed (Ble.out r') = Ble.printed (Ble.out Ble.init) ++ ps.
Proof.
  apply (receivers_agree fs_ok
           (bytes_of "abc" ++ CRLF ++ bytes_of ">>>> IDLE" ++ CRLF
            ++ bytes_of "xy") (init []) Ble.init).
  - repeat split. simpl. discriminate.
  - change (Forall unmarked [bytes_of "abc"; bytes_of ">>>> IDLE"]).
    apply Forall_cons; [|apply Forall_cons; [|apply Forall_nil]];
      intros t H; vm_compute in H; inversion H; subst; split; reflexivity.
Defined.

(** ** Where the code departs from the specification *)


(** C2, counterexample.  The same stream, cut in two ways, delivered to a
    fresh receiver.  The first line is a close marker and no log file is
    open: [process_line] raises [OSError("No log file is currently
    open!")], which is no [ValueError] and leaves [update_data_buffer].
    Delivered in one piece, the line [abc] is therefore not extracted and
    stays in [buf]; delivered in two pieces, the second call extracts
    it. *)
Lemma lines_depend_on_fragments :
  let one := [bytes_of "PB_EOF" ++ CRLF ++ bytes_of "abc" ++ CRLF] in
  let two := [bytes_of "PB_EOF" ++ CRLF; bytes_of "abc" ++ CRLF] in
  concat one = concat two /\
  spec_lines (concat one) = [bytes_of "PB_EOF"; bytes_of "abc"] /\
  update_data_buffer fs_ok (concat one) (init []) =
  (Raises (OSError "No log file is currently open!"),
   mkHub (bytes_of "abc" ++ CRLF) UNKNOWN None None []
         [RX (bytes_of "PB_EOF")]) /\
  rx_lines (out (deliver fs_ok (map Notify one) (init [])))
  = [bytes_of "PB_EOF"] /\
  buf (deliver fs_ok (map Notify one) (init [])) = bytes_of "abc" ++ CRLF /\
  rx_lines (out (deliver fs_ok (map Notify two) (init [])))
  = [bytes_of "PB_EOF"; bytes_of "abc"].
Proof. repeat split; reflexivity. Qed.

(** C4, counterexample.  Sending the one-byte payload [01]: the transport
    write is issued while [state] is still [UNKNOWN]; [CHECKING] is entered
    only afterwards. *)
Lemma write_precedes_checking :
  state (snd (write fs_ok [x01] (init []))) = UNKNOWN /\
  out (snd (send_message fs_ok [x01] (init []))) =
  [TX [x01]; Sleep 50; GattWrite [x01]; NewState CHECKING]
  ++ repeat (Sleep 10) 50.
Proof. split; reflexivity. Qed.

(** C5, counterexample.  The empty payload is outside [0 < len <= 100] and
    is not refused: [send_message] enters the checksum wait and, when the
    hub answers 0, returns without error. *)
Lemma empty_payload_accepted :
  ~ 0 < length (@nil byte) /\
  send_message fs_ok [] (init [[Notify [x00]]]) =
  (Returns tt,
   mkHub [] IDLE None None []
         [NewState CHECKING; Sleep 10; CS 0; NewState IDLE;
          Expected 0 (Some 0%N)]).
Proof. split; [simpl; lia|reflexivity]. Qed.

(** C6, counterexample.  A program of 2^32 bytes: its length does not fit
    the 4-byte prefix, [to_bytes] raises [OverflowError] and nothing is
    sent. *)
Lemma download_and_run_overflow :
  download_and_run fs_ok (repeat x00 (2 ^ 32)) (init []) =
  (Raises OverflowError, init []).
Proof.
  unfold download_and_run. rewrite repeat_length.
  replace (N.of_nat (2 ^ 32)) with (2 ^ 32)%N.
  - assert (E : to_bytes4 (2 ^ 32) = None) by reflexivity.
    rewrite E. reflexivity.
  - rewrite Nat2N.inj_pow. reflexivity.
Qed.

(** C7, counterexample.  A receiver in the [CHECKING] phase, as during
    every [send_message]: the line [>>>> IDLE], delivered twice, names a
    state that differs from the current one, and no state change is
    recorded.  Each fragment is taken for a checksum reply (its last
    byte, 10), the state stays [CHECKING] and no line is extracted. *)
Lemma status_line_ignored_while_checking :
  let line := bytes_of ">>>> IDLE" ++ CRLF in
  let w := mkHub [] CHECKING None None [] [] in
  let w2 := deliver fs_ok [Notify line; Notify line] w in
  map_state (bytes_of ">>>> IDLE") = Some IDLE /\
  state w2 = CHECKING /\
  state_changes (out w2) = 0 /\
  rx_lines (out w2) = [] /\
  out w2 = [CS 10; CS 10] /\
  reply w2 = Some 10%N.
Proof. repeat split; reflexivity. Qed.

(** ** The embedding on small inputs *)

Example undecodable_line_stops_the_loop :
  let one := [[xff] ++ CRLF ++ bytes_of "abc" ++ CRLF] in
  let two := [[xff] ++ CRLF; bytes_of "abc" ++ CRLF] in
  rx_lines (out (deliver fs_ok (map Notify one) (init []))) = [[xff]] /\
  buf (deliver fs_ok (map Notify one) (init [])) = bytes_of "abc" ++ CRLF /\
  rx_lines (out (deliver fs_ok (map Notify two) (init [])))
  = [[xff]; bytes_of "abc"].
Proof. repeat split; reflexivity. Qed.

Example decode_ascii : decode (bytes_of "abc") = Some [97; 98; 99]%N.
Proof. reflexivity. Qed.

Example decode_two_bytes : decode [xc3; xa9] = Some [233%N].
Proof. reflexivity. Qed.

Example decode_three_bytes : decode [xe2; x82; xac] = Some [8364%N].
Proof. reflexivity. Qed.

Example decode_four_bytes : decode [xf0; x9f; x98; x80] = Some [128512%N].
Proof. reflexivity. Qed.

Example decode_invalid :
  decode [xff] = None /\ decode [xc0; x80] = None /\
  decode [xed; xa0; x80] = None /\ decode [xe2; x82] = None.
Proof. repeat split; reflexivity. Qed.

Example close_marker_is_no_open_marker :
  contains PB_OF (text_of "PB_EOF") = false /\
  contains PB_EOF (text_of "PB_EOF") = true /\
  contains PB_OF (text_of "PB_OF out.txt") = true.
Proof. repeat split; reflexivity. Qed.

Example index_crlf_first :
  index_crlf (bytes_of "ab" ++ CRLF ++ bytes_of "c" ++ CRLF) = Some 2 /\
  index_crlf (bytes_of "ab" ++ [CR]) = None /\
  index_crlf ([CR; CR; LF]) = Some 1.
Proof. repeat split; reflexivity. Qed.

Example chunks_45 :
  map (@length byte) (chunks 20 (repeat x00 45)) = [20; 20; 5].
Proof. reflexivity. Qed.

Example to_bytes4_250 : to_bytes4 250 = Some [xfa; x00; x00; x00].
Proof. reflexivity. Qed.

Example to_bytes4_big : to_bytes4 305419896 = Some [x78; x56; x34; x12].
Proof. reflexivity. Qed.

Example xor_fold_abc : xor_fold (bytes_of "abc") = 96%N.
Proof. reflexivity. Qed.

Example map_state_tokens :
  map_state (bytes_of ">>>> RUNNING") = Some RUNNING /\
  map_state (bytes_of ">>>> RUNNING ") = None.
Proof. split; reflexivity. Qed.

(** A second open marker raises [OSError] out of the dispatcher; the line
    behind it stays in the buffer until the next delivery. *)
Example open_twice_stops_the_loop :
  let stream := bytes_of "PB_OF a" ++ CRLF ++ bytes_of "PB_OF b" ++ CRLF
                ++ bytes_of "x" ++ CRLF in
  let w := deliver fs_ok [Notify stream] (init []) in
  buf w = bytes_of "x" ++ CRLF /\
  rx_lines (out w) = [bytes_of "PB_OF a"; bytes_of "PB_OF b"] /\
  last (out w) Disconnected = Uncaught (OSError "Log file is already open!").
Proof. repeat split; reflexivity. Qed.

(** A 250-byte program with a hub that echoes every checksum at the first
    poll and reports [RUNNING], then [IDLE]. *)
Example download_250 :
  let mpy := repeat x01 250 in
  let ack c := repeat [] 2 ++ [[Notify [c]]] in
  let ack5 c := repeat [] 10 ++ [[Notify [c]]] in
  let ack3 c := repeat [] 6 ++ [[Notify [c]]] in
  let s := ack xfa ++ ack5 x00 ++ ack5 x00 ++ ack3 x00
           ++ [[Notify (bytes_of ">>>> RUNNING" ++ CRLF)]; []; [];
               [Notify (bytes_of ">>>> IDLE" ++ CRLF)]] in
  let r := download_and_run fs_ok mpy (init s) in
  fst r = Returns tt /\
  state (snd r) = IDLE /\
  map (@length byte) (gatt_writes (out (snd r))) =
  [4; 20; 20; 20; 20; 20; 20; 20; 20; 20; 20; 20; 20; 10] /\
  filter is_uplink (filter (fun e => negb (is_outbound e)) (out (snd r))) =
  [Expected 250 (Some 250%N); Sending 1 3; Expected 0 (Some 0%N);
   Sending 2 3; Expected 0 (Some 0%N); Sending 3 3; Expected 0 (Some 0%N)].
Proof. vm_compute. repeat split; reflexivity. Qed.
